(** * Verification of the progress tracker of top-german-words

    The development embeds [docs/assets/js/progress.js] (class
    [ProgressManager]) and proves or refutes the properties its design
    document states about it.

    Layout of the model:
    - [JS]: the parts of the JavaScript platform the class relies on:
      strings as sequences of UTF-16 code units with the ordering that
      [Array.prototype.sort] uses, [String.prototype.trim], IEEE 754
      double arithmetic with [Math.round], the values [JSON.parse]
      produces, and the built-in prototypes a property read falls through
      to;
    - the page and the manager: word cells are objects in a store and are
      referred to by reference, so the cached [wordCells] list, the list
      the document answers to [querySelectorAll] and the cell captured by
      a click handler may alias; a table row is an object of its own,
      which several cells may share and a cell may lack;
    - the methods of [ProgressManager], in a state-and-exception monad;
    - the statements, grouped by component. *)

From Stdlib Require Import ZArith NArith List Floats.SpecFloat.
From stdpp Require Import base strings gmap list sorting.

Set Warnings "-register-all".

(* ===================================================================== *)
(** * The JavaScript platform *)
(* ===================================================================== *)

Module JS.

(** ** Strings

    A JavaScript string is a sequence of UTF-16 code units. *)

Abbreviation jsstring := (list N).

(** [lit] turns an ASCII literal into the string with these code units. *)
Definition lit (s : string) : jsstring :=
  (λ a, Ascii.N_of_ascii a) <$> String.list_ascii_of_string s.

(** [x < y] on strings: code unit by code unit, a proper prefix is smaller. *)
Fixpoint js_ltb (x y : jsstring) : bool :=
  match x, y with
  | [], [] => false
  | [], _ :: _ => true
  | _ :: _, [] => false
  | a :: x', b :: y' =>
      if (a <? b)%N then true
      else if (b <? a)%N then false
      else js_ltb x' y'
  end.

(** The order [Array.prototype.sort] sorts strings by when it is given no
    comparator: [x] may stand before [y] unless [y < x]. *)
Definition js_le (x y : jsstring) : Prop := js_ltb y x = false.

Global Instance js_le_dec x y : Decision (js_le x y).
Proof. unfold js_le. apply _. Defined.

(** [arr.sort()] on an array of strings. The sorted array of a total order
    is unique (lemma [sort_unique] below), so the algorithm the engine picks
    does not show. *)
Definition Array_sort (arr : list jsstring) : list jsstring :=
  merge_sort js_le arr.

(** WhiteSpace and LineTerminator code points, as [trim] strips them. *)
Definition is_white_space (c : N) : bool :=
  ((c =? 9) || (c =? 10) || (c =? 11) || (c =? 12) || (c =? 13) ||
   (c =? 32) || (c =? 160) || (c =? 5760) ||
   ((8192 <=? c) && (c <=? 8202)) ||
   (c =? 8232) || (c =? 8233) || (c =? 8239) || (c =? 8287) ||
   (c =? 12288) || (c =? 65279))%N.

Fixpoint trimStart (s : jsstring) : jsstring :=
  match s with
  | c :: s' => if is_white_space c then trimStart s' else s
  | [] => []
  end.

Definition trimEnd (s : jsstring) : jsstring := rev (trimStart (rev s)).

Definition trim (s : jsstring) : jsstring := trimEnd (trimStart s).

(** ** Sets of strings

    [new Set(arr)], [has], [add], [delete] and [size] on a [Set] whose
    members are strings. The iteration order of a [Set] is only observed
    through [[...set].sort()], which does not depend on it. *)

Abbreviation jsset := (gset jsstring).

Definition new_Set (arr : list jsstring) : jsset := list_to_set arr.
Definition Set_has (s : jsset) (w : jsstring) : bool := bool_decide (w ∈ s).
Definition Set_add (s : jsset) (w : jsstring) : jsset := s ∪ {[w]}.
Definition Set_delete (s : jsset) (w : jsstring) : jsset := s ∖ {[w]}.
Definition Set_size (s : jsset) : nat := size s.
(** [[...set]] *)
Definition Set_spread (s : jsset) : list jsstring := elements s.

(** ** Numbers

    Numbers are IEEE 754 binary64 values; [/] and [*] round to nearest,
    ties to even. *)

Definition prec : Z := 53.
Definition emax : Z := 1024.

Abbreviation number := spec_float.

(** The Number value of an array length or a counter. *)
Definition Number_of_nat (n : nat) : number :=
  binary_normalize prec emax (Z.of_nat n) 0 false.

Definition js_div (x y : number) : number := SFdiv prec emax x y.
Definition js_mul (x y : number) : number := SFmul prec emax x y.

(** [Math.round(x)]: the integer closest to [x], the larger one when two
    are equally close, that is [floor(x + 1/2)] computed exactly. [None]
    stands for the results that are not integers: NaN and the infinities. *)
Definition Math_round (x : number) : option Z :=
  match x with
  | S754_zero _ => Some 0%Z
  | S754_finite s m e =>
      let n := (if s then Z.neg m else Z.pos m) in
      Some (if (0 <=? e)%Z then (n * 2 ^ e)%Z
            else ((2 * n + 2 ^ (- e)) / 2 ^ (1 - e))%Z)
  | S754_infinity _ => None
  | S754_nan => None
  end.

(** ** Values

    The values [JSON.parse] produces and IndexedDB hands back, as trees:
    every array and object is an object of its own. Numbers are the
    integral ones. [JUndefined] is what reading a missing property or a
    missing record gives. *)

Inductive jsval :=
  | JUndefined
  | JNull
  | JBool (b : bool)
  | JNum (z : Z)
  | JStr (s : jsstring)
  | JArr (elems : list jsval)
  | JObj (props : list (jsstring * jsval)).

(** ToBoolean *)
Definition truthy (v : jsval) : bool :=
  match v with
  | JUndefined | JNull => false
  | JBool b => b
  | JNum z => negb (z =? 0)%Z
  | JStr s => negb (bool_decide (s = []))
  | JArr _ | JObj _ => true
  end.

(** [typeof v === 'object'] *)
Definition typeof_object (v : jsval) : bool :=
  match v with
  | JNull | JArr _ | JObj _ => true
  | _ => false
  end.

Fixpoint own_property (props : list (jsstring * jsval)) (k : jsstring)
  : option jsval :=
  match props with
  | [] => None
  | (k', v) :: rest => if decide (k' = k) then Some v else own_property rest k
  end.

(** Failures a script can catch. *)
Inductive error :=
  | TypeError
  | SyntaxError
  | DOMException.

(** An array index as a property name: decimal digits without a leading
    zero (["0"] itself apart). *)
Fixpoint digits_value (acc : N) (k : jsstring) : option N :=
  match k with
  | [] => Some acc
  | c :: k' =>
      if ((48 <=? c) && (c <=? 57))%N
      then digits_value (acc * 10 + (c - 48))%N k'
      else None
  end.

Definition array_index (k : jsstring) : option nat :=
  match k with
  | [] => None
  | [48%N] => Some 0
  | 48%N :: _ => None
  | _ => N.to_nat <$> digits_value 0 k
  end.

(** The own properties of a value: those of an object, and the elements
    and the [length] of an array or a string. *)
Definition own (v : jsval) (k : jsstring) : option jsval :=
  match v with
  | JObj props => own_property props k
  | JArr elems =>
      if decide (k = lit "length") then Some (JNum (Z.of_nat (length elems)))
      else i ← array_index k; elems !! i
  | JStr s =>
      if decide (k = lit "length") then Some (JNum (Z.of_nat (length s)))
      else i ← array_index k; c ← s !! i; Some (JStr [c])
  | _ => None
  end.

(** ** The built-in prototypes

    The values above are plain objects, arrays and primitives, and a read
    [v[k]] that finds no own property goes on along the prototype chain:
    [Array.prototype], [String.prototype], [Number.prototype] or
    [Boolean.prototype], and [Object.prototype] behind each of them. The
    properties are those of ECMAScript 2024 with its Annex B; a page whose
    scripts add properties to these prototypes is not modelled. All of them
    are functions, apart from the accessor [__proto__], which yields the
    prototype of the value read from. *)
Inductive builtin :=
  | Function_object
  | Object_prototype
  | Array_prototype
  | String_prototype
  | Number_prototype
  | Boolean_prototype.

Global Instance builtin_eq_dec : EqDecision builtin.
Proof. solve_decision. Defined.

Definition Object_prototype_functions : list jsstring :=
  lit <$> ["constructor"; "__defineGetter__"; "__defineSetter__";
           "hasOwnProperty"; "__lookupGetter__"; "__lookupSetter__";
           "isPrototypeOf"; "propertyIsEnumerable"; "toString"; "valueOf";
           "toLocaleString"].

Definition Array_prototype_functions : list jsstring :=
  lit <$> ["at"; "concat"; "constructor"; "copyWithin"; "entries"; "every";
           "fill"; "filter"; "find"; "findIndex"; "findLast";
           "findLastIndex"; "flat"; "flatMap"; "forEach"; "includes";
           "indexOf"; "join"; "keys"; "lastIndexOf"; "map"; "pop"; "push";
           "reduce"; "reduceRight"; "reverse"; "shift"; "slice"; "some";
           "sort"; "splice"; "toLocaleString"; "toReversed"; "toSorted";
           "toSpliced"; "toString"; "unshift"; "values"; "with"].

Definition String_prototype_functions : list jsstring :=
  lit <$> ["at"; "charAt"; "charCodeAt"; "codePointAt"; "concat";
           "constructor"; "endsWith"; "includes"; "indexOf"; "isWellFormed";
           "lastIndexOf"; "localeCompare"; "match"; "matchAll"; "normalize";
           "padEnd"; "padStart"; "repeat"; "replace"; "replaceAll"; "search";
           "slice"; "split"; "startsWith"; "substring"; "toLocaleLowerCase";
           "toLocaleUpperCase"; "toLowerCase"; "toString"; "toUpperCase";
           "toWellFormed"; "trim"; "trimEnd"; "trimStart"; "valueOf";
           "substr"; "anchor"; "big"; "blink"; "bold"; "fixed"; "fontcolor";
           "fontsize"; "italics"; "link"; "small"; "strike"; "sub"; "sup";
           "trimLeft"; "trimRight"].

Definition Number_prototype_functions : list jsstring :=
  lit <$> ["constructor"; "toExponential"; "toFixed"; "toLocaleString";
           "toPrecision"; "toString"; "valueOf"].

Definition Boolean_prototype_functions : list jsstring :=
  lit <$> ["constructor"; "toString"; "valueOf"].

(** The prototype of a value. *)
Definition prototype_of (v : jsval) : option builtin :=
  match v with
  | JObj _ => Some Object_prototype
  | JArr _ => Some Array_prototype
  | JStr _ => Some String_prototype
  | JNum _ => Some Number_prototype
  | JBool _ => Some Boolean_prototype
  | JUndefined | JNull => None
  end.

(** The names of the functions found from a prototype on, the chain
    included. *)
Definition inherited_functions (proto : builtin) : list jsstring :=
  match proto with
  | Function_object => []
  | Object_prototype => Object_prototype_functions
  | Array_prototype => Array_prototype_functions ++ Object_prototype_functions
  | String_prototype => String_prototype_functions ++ Object_prototype_functions
  | Number_prototype => Number_prototype_functions ++ Object_prototype_functions
  | Boolean_prototype =>
      Boolean_prototype_functions ++ Object_prototype_functions
  end.

(** What a read of [k] finds on the chain that starts at [proto]. *)
Definition inherited_from (proto : builtin) (k : jsstring) : option builtin :=
  if decide (k = lit "__proto__") then Some proto
  else if decide (k ∈ inherited_functions proto) then Some Function_object
  else None.

(** [v[k]] in full: a [TypeError] on [undefined] and [null]; else the own
    property when there is one, else the inherited one, else
    [undefined]. *)
Definition Get (v : jsval) (k : jsstring) : error + (jsval + builtin) :=
  match prototype_of v with
  | None => inl TypeError
  | Some proto =>
      match own v k with
      | Some x => inr (inl x)
      | None =>
          match inherited_from proto k with
          | Some b => inr (inr b)
          | None => inr (inl JUndefined)
          end
      end
  end.

(** What [new Set(b)] iterates for a built-in object: nothing for the two
    prototypes that are iterable, an empty array and an empty string
    object; a function and the other prototypes are not iterable. *)
Definition iterate_builtin (b : builtin) : error + list jsval :=
  match b with
  | Array_prototype | String_prototype => inr []
  | Function_object | Object_prototype | Number_prototype
  | Boolean_prototype => inl TypeError
  end.

(** [v[k]] as far as own properties go: a [TypeError] on [undefined] and
    [null]; the own property of an object; an element or the [length] of
    an array or a string; [undefined] otherwise. For a name that no
    built-in prototype has this is all of [v[k]]; the loads read [pages]
    with it (lemma [Get_pages]). *)
Definition get_property (v : jsval) (k : jsstring) : error + jsval :=
  match v with
  | JUndefined | JNull => inl TypeError
  | JObj props => inr (default JUndefined (own_property props k))
  | JArr elems =>
      if decide (k = lit "length") then inr (JNum (Z.of_nat (length elems)))
      else inr (default JUndefined (i ← array_index k; elems !! i))
  | JStr s =>
      if decide (k = lit "length") then inr (JNum (Z.of_nat (length s)))
      else inr (default JUndefined
                  (i ← array_index k; c ← s !! i; Some (JStr [c])))
  | JBool _ | JNum _ => inr JUndefined
  end.

End JS.

Import JS.

(* ===================================================================== *)
(** * The page and the manager *)
(* ===================================================================== *)

(** A [td.word] element, with what the manager reads and writes of it. *)
Record cell := Cell {
  textContent : jsstring;
  learned : bool;                    (* classList.contains('learned') *)
  listenerBound : option jsstring;   (* dataset.listenerBound *)
  clickListeners : nat;              (* click handlers added by the manager *)
  title : string;
  closest_tr : option nat            (* closest('tr'): a row, or null *)
}.

(** Elements are objects: the manager holds references to them. *)
Abbreviation ref := nat.

(** Table rows are objects too. Two cells of one row have the same row,
    and a cell outside any row has none. *)
Abbreviation row := nat.

(** The Progress Document, [{ pages: { pageId: [itemId, ...] } }]. *)
Record document := Doc {
  pages : gmap jsstring (list jsstring)
}.

(** What [updateProgressUI] last wrote into the three progress elements:
    the fill width [percent + '%'], [aria-valuenow] and the text
    [learned/total (percent%)]. *)
Record readout := Readout {
  shown_learned : nat;
  shown_total : nat;
  shown_percent : option Z
}.

Record state := State {
  (* the fields of the ProgressManager *)
  PAGE_ID : jsstring;
  progress : document;
  hideLearned : bool;
  totalWords : nat;
  learnedCount : nat;
  wordCells : list ref;
  (* progressBar && progressFill && progressText: are all three there *)
  progressBar : bool;
  progressFill : bool;
  progressText : bool;
  (* the page *)
  elements_store : list cell;        (* the td.word objects, by reference *)
  document_words : list ref;         (* document.querySelectorAll('td.word') *)
  hidden_rows : gset row;            (* the rows whose style.display is 'none' *)
  statusEl : string;                 (* statusEl.textContent *)
  btnHide : string;                  (* btnHide.textContent *)
  published : option readout;
  (* the storages *)
  localStorage_hideLearned : option bool;
  idb_progress : option document     (* 'progress' in german-words-db *)
}.

Definition with_progress (d : document) (st : state) : state :=
  State (PAGE_ID st) d (hideLearned st) (totalWords st) (learnedCount st)
    (wordCells st) (progressBar st) (progressFill st) (progressText st)
    (elements_store st) (document_words st) (hidden_rows st) (statusEl st)
    (btnHide st) (published st) (localStorage_hideLearned st)
    (idb_progress st).

Definition with_totalWords (total : nat) (st : state) : state :=
  State (PAGE_ID st) (progress st) (hideLearned st) total (learnedCount st)
    (wordCells st) (progressBar st) (progressFill st) (progressText st)
    (elements_store st) (document_words st) (hidden_rows st) (statusEl st)
    (btnHide st) (published st) (localStorage_hideLearned st)
    (idb_progress st).

Definition with_learnedCount (count : nat) (st : state) : state :=
  State (PAGE_ID st) (progress st) (hideLearned st) (totalWords st) count
    (wordCells st) (progressBar st) (progressFill st) (progressText st)
    (elements_store st) (document_words st) (hidden_rows st) (statusEl st)
    (btnHide st) (published st) (localStorage_hideLearned st)
    (idb_progress st).

Definition with_wordCells (l : list ref) (st : state) : state :=
  State (PAGE_ID st) (progress st) (hideLearned st) (totalWords st)
    (learnedCount st) l (progressBar st) (progressFill st) (progressText st)
    (elements_store st) (document_words st) (hidden_rows st) (statusEl st)
    (btnHide st) (published st) (localStorage_hideLearned st)
    (idb_progress st).

Definition with_elements (els : list cell) (st : state) : state :=
  State (PAGE_ID st) (progress st) (hideLearned st) (totalWords st)
    (learnedCount st) (wordCells st) (progressBar st) (progressFill st)
    (progressText st) els (document_words st) (hidden_rows st) (statusEl st)
    (btnHide st) (published st) (localStorage_hideLearned st)
    (idb_progress st).

Definition with_hidden_rows (rows : gset row) (st : state) : state :=
  State (PAGE_ID st) (progress st) (hideLearned st) (totalWords st)
    (learnedCount st) (wordCells st) (progressBar st) (progressFill st)
    (progressText st) (elements_store st) (document_words st) rows
    (statusEl st) (btnHide st) (published st) (localStorage_hideLearned st)
    (idb_progress st).

Definition with_status (msg : string) (st : state) : state :=
  State (PAGE_ID st) (progress st) (hideLearned st) (totalWords st)
    (learnedCount st) (wordCells st) (progressBar st) (progressFill st)
    (progressText st) (elements_store st) (document_words st)
    (hidden_rows st) msg (btnHide st) (published st)
    (localStorage_hideLearned st) (idb_progress st).

Definition with_btnHide (icon : string) (st : state) : state :=
  State (PAGE_ID st) (progress st) (hideLearned st) (totalWords st)
    (learnedCount st) (wordCells st) (progressBar st) (progressFill st)
    (progressText st) (elements_store st) (document_words st)
    (hidden_rows st) (statusEl st) icon (published st)
    (localStorage_hideLearned st) (idb_progress st).

Definition with_published (r : readout) (st : state) : state :=
  State (PAGE_ID st) (progress st) (hideLearned st) (totalWords st)
    (learnedCount st) (wordCells st) (progressBar st) (progressFill st)
    (progressText st) (elements_store st) (document_words st)
    (hidden_rows st) (statusEl st) (btnHide st) (Some r)
    (localStorage_hideLearned st) (idb_progress st).

Definition with_localStorage (b : bool) (st : state) : state :=
  State (PAGE_ID st) (progress st) (hideLearned st) (totalWords st)
    (learnedCount st) (wordCells st) (progressBar st) (progressFill st)
    (progressText st) (elements_store st) (document_words st)
    (hidden_rows st) (statusEl st) (btnHide st) (published st) (Some b)
    (idb_progress st).

Definition with_idb (d : document) (st : state) : state :=
  State (PAGE_ID st) (progress st) (hideLearned st) (totalWords st)
    (learnedCount st) (wordCells st) (progressBar st) (progressFill st)
    (progressText st) (elements_store st) (document_words st)
    (hidden_rows st) (statusEl st) (btnHide st) (published st)
    (localStorage_hideLearned st) (Some d).

(** ** Computations that change the state and may throw *)

Inductive outcome (A : Type) :=
  | Return (a : A)
  | Throw (e : error).
Arguments Return {A} a.
Arguments Throw {A} e.

Definition M (A : Type) : Type := state → outcome A * state.

Global Instance M_ret : MRet M := λ A a st, (Return a, st).
Global Instance M_bind : MBind M := λ A B f m st,
  match m st with
  | (Return a, st') => f a st'
  | (Throw e, st') => (Throw e, st')
  end.

Definition throw {A} (e : error) : M A := λ st, (Throw e, st).
Definition get {A} (f : state → A) : M A := λ st, (Return (f st), st).
Definition modify (f : state → state) : M unit := λ st, (Return tt, f st).
(** [try { m } catch { h }] *)
Definition try_catch {A} (m : M A) (h : M A) : M A :=
  λ st, match m st with
        | (Throw _, st') => h st'
        | r => r
        end.

(** [for (const x of xs) body(x)] *)
Fixpoint for_of {A} (xs : list A) (body : A → M unit) : M unit :=
  match xs with
  | [] => mret tt
  | x :: xs' => body x;; for_of xs' body
  end.

(** Reading and updating an element through a reference. A reference the
    manager holds always points to an element; using one that does not is
    the [TypeError] of using [undefined]. *)
Definition element (td : ref) : M cell :=
  λ st, match elements_store st !! td with
        | Some c => (Return c, st)
        | None => (Throw TypeError, st)
        end.

Definition update_element (td : ref) (f : cell → cell) : M unit :=
  c ← element td;
  modify (λ st, with_elements (<[td := f c]> (elements_store st)) st).

Definition set_learned (b : bool) (c : cell) : cell :=
  Cell (textContent c) b (listenerBound c) (clickListeners c) (title c)
    (closest_tr c).
Definition set_title (t : string) (c : cell) : cell :=
  Cell (textContent c) (learned c) (listenerBound c) (clickListeners c) t
    (closest_tr c).
Definition set_listenerBound (v : jsstring) (c : cell) : cell :=
  Cell (textContent c) (learned c) (Some v) (clickListeners c) (title c)
    (closest_tr c).
Definition add_click_listener (c : cell) : cell :=
  Cell (textContent c) (learned c) (listenerBound c) (S (clickListeners c))
    (title c) (closest_tr c).

(** [tr.style.display = none ? 'none' : ''] *)
Definition set_display (tr : row) (none : bool) (st : state) : state :=
  with_hidden_rows
    (if none then hidden_rows st ∪ {[tr]} else hidden_rows st ∖ {[tr]}) st.

(* ===================================================================== *)
(** * The methods of ProgressManager *)
(* ===================================================================== *)

(** ** IndexedDB

    How the database answers during one [open → transact → close]: whether
    [indexedDB.open] succeeds and whether the transaction completes. *)
Record idb_run := IdbRun {
  open_ok : bool;
  tx_ok : bool
}.

Definition idbOpen (io : idb_run) : M unit :=
  if open_ok io then mret tt else throw DOMException.

(** [idbPut(db, storeName, 'progress', this.progress)]: the record is
    replaced when the transaction completes and kept when it aborts. *)
Definition idbPut (io : idb_run) : M unit :=
  if tx_ok io then modify (λ st, with_idb (progress st) st)
  else throw DOMException.

(** ** Progress helpers *)

(** [this.progress.pages[this.PAGE_ID] || []], then [new Set]: [pages] is a
    plain object, so the read finds the page's own entry, an array and so
    truthy, or else what [Object.prototype] has under that name, a
    function or the prototype itself, truthy too and handed to [new Set]
    as it is; only a name found nowhere gives the empty array. *)
Definition getSet : M jsset :=
  st ← get id;
  match pages (progress st) !! PAGE_ID st with
  | Some arr => mret (new_Set arr)
  | None =>
      match inherited_from Object_prototype (PAGE_ID st) with
      | Some b =>
          match iterate_builtin b with
          | inl e => throw e
          | inr _ => mret (new_Set [])
          end
      | None => mret (new_Set [])
      end
  end.

(** [this.progress.pages[this.PAGE_ID] = [...set].sort()]: the assignment
    writes the own entry of the page. The one name for which a plain
    object does otherwise is [__proto__] without an own entry, where the
    assignment goes to the setter of [Object.prototype]; the click handler,
    the only caller, never gets there, because it comes here only when
    [getSet] has returned, that is with an own entry for the page or a
    page identifier that names nothing inherited. *)
Definition setSet (set : jsset) : M unit :=
  modify (λ st,
    with_progress
      (Doc (<[PAGE_ID st := Array_sort (Set_spread set)]> (pages (progress st))))
      st).

Definition updateHideButton : M unit :=
  modify (λ st, with_btnHide (if hideLearned st then "👁️‍🗨️" else "👁️") st).

(** The row of a cell is [td.closest('tr')]; writing the [style] of
    [null] is a [TypeError], and it ends the loop before the flag is
    stored. Cells of one row write the same row, one after the other. *)
Definition applyHide : M unit :=
  cells ← get wordCells;
  for_of cells (λ td,
    c ← element td;
    let tr := closest_tr c in
    let isLearned := learned c in
    match tr with
    | None => throw TypeError
    | Some tr =>
        hide ← get hideLearned;
        modify (set_display tr (hide && isLearned))
    end);;
  modify (λ st, with_localStorage (hideLearned st) st);;
  updateHideButton.

(** ** Progress UI helpers *)

(** The loop of [computeTotals] that counts the cells carrying the class
    [learned]. *)
Fixpoint count_learned (tds : list ref) (learnedByClass : nat) : M nat :=
  match tds with
  | [] => mret learnedByClass
  | td :: rest =>
      c ← element td;
      count_learned rest (if learned c then S learnedByClass else learnedByClass)
  end.

Definition computeTotals : M unit :=
  modify (λ st, with_wordCells (document_words st) st);;
  set ← getSet;
  modify (λ st, with_totalWords (length (wordCells st)) st);;
  cells ← get wordCells;
  learnedByClass ← count_learned cells 0;
  let learnedBySet := Set_size set in
  modify (with_learnedCount (learnedByClass `max` learnedBySet)).

(** [total === 0 ? 0 : Math.round((learned / total) * 100)] *)
Definition percent_of (learned total : nat) : option Z :=
  if decide (total = 0) then Some 0%Z
  else Math_round
         (js_mul (js_div (Number_of_nat learned) (Number_of_nat total))
                 (Number_of_nat 100)).

Definition updateProgressUI : M unit :=
  st ← get id;
  if negb (progressBar st && progressFill st && progressText st) then mret tt
  else
    let total := totalWords st in
    let learned := learnedCount st `min` total in
    let percent := percent_of learned total in
    modify (with_published (Readout learned total percent)).

Definition recalculateAndUpdateUI : M unit :=
  computeTotals;;
  updateProgressUI.

Definition applyMarks : M unit :=
  learned ← getSet;
  cells ← get wordCells;
  for_of cells (λ td,
    c ← element td;
    let w := trim (textContent c) in
    update_element td
      (λ c, set_title "Натисніть, щоб відмітити як вивчене"
              (set_learned (Set_has learned w) c)));;
  applyHide;;
  recalculateAndUpdateUI.

(** ** Saving *)

Definition saveProgressToDB (io : idb_run) : M unit :=
  try_catch
    (idbOpen io;;
     idbPut io;;
     modify (with_status "Прогрес збережено."))
    (modify (with_status "Помилка збереження.")).

(** ** Binding and the click handler *)

(** The handler [addWordCellListener] attaches to [td]; [io] is how the
    database answers the save this activation makes. *)
Definition onClick (io : idb_run) (td : ref) : M unit :=
  c ← element td;
  let w := trim (textContent c) in
  set ← getSet;
  set' ← (if Set_has set w
          then update_element td (set_learned false);; mret (Set_delete set w)
          else update_element td (set_learned true);; mret (Set_add set w));
  setSet set';;
  saveProgressToDB io;;
  applyHide;;
  recalculateAndUpdateUI.

(** [td] is [None] for a [null] argument. *)
Definition addWordCellListener (td : option ref) : M unit :=
  match td with
  | None => mret tt
  | Some r =>
      c ← element r;
      if decide (listenerBound c = Some (lit "1")) then mret tt
      else update_element r (λ c, add_click_listener (set_listenerBound (lit "1") c))
  end.

(** A node handed to the mutation observer: a text node or comment, or an
    element, which is a [td.word] object or not, with its children. *)
Inductive node :=
  | NonElement
  | Element (td_word : option ref) (children : list node).

(** The [td.word] elements of a subtree, the root included, in document
    order. *)
Fixpoint words_of (n : node) : list ref :=
  match n with
  | NonElement => []
  | Element w children => option_list w ++ flat_map words_of children
  end.

(** [node.querySelectorAll('td.word')]: the descendants only. *)
Definition querySelectorAll_word (n : node) : list ref :=
  match n with
  | NonElement => []
  | Element _ children => flat_map words_of children
  end.

(** [node.matches('td.word')] *)
Definition matches_word (n : node) : option ref :=
  match n with
  | NonElement => None
  | Element w _ => w
  end.

Inductive mutation_type := childList | attributes | characterData.

Record mutation := Mutation {
  mtype : mutation_type;
  addedNodes : list node
}.

Definition is_childList (m : mutation) : bool :=
  match mtype m with childList => true | _ => false end.

(** What [setupEventListeners] does to the cells at start-up: it binds the
    cached ones. (It also registers the hide button's handler and the
    observer, whose callback is [observer_callback].) *)
Definition setupEventListeners : M unit :=
  cells ← get wordCells;
  for_of cells (λ td, addWordCellListener (Some td)).

(** What the callback does with one added node. *)
Definition bind_added (node : node) : M unit :=
  match node with
  | NonElement => mret tt
  | Element _ _ =>
      (if matches_word node is Some td
       then addWordCellListener (Some td) else mret tt);;
      for_of (querySelectorAll_word node) (λ td, addWordCellListener (Some td))
  end.

(** The callback of the [MutationObserver]. *)
Definition observer_callback (mutations : list mutation) : M unit :=
  for_of mutations (λ m,
    if is_childList m then for_of (addedNodes m) bind_added else mret tt);;
  let needsRecalc := existsb is_childList mutations in
  if needsRecalc then recalculateAndUpdateUI else mret tt.

(** ** External file binding *)

Inductive permission := granted | denied | prompt.

(** The calls [ensurePermission] makes on the platform, in order. *)
Inductive platform_call := QueryPermission | RequestPermission.

(** A file handle, by what the platform answers to the two calls: a
    permission state, or a rejection. *)
Record file_handle := FileHandle {
  queryPermission : error + permission;
  requestPermission : error + permission
}.

(** [ensurePermission(handle)], [None] being a [null] or missing handle:
    what it resolves to, or rejects with, and the platform calls made. *)
Definition ensurePermission (handle : option file_handle)
  : outcome permission * list platform_call :=
  match handle with
  | None => (Return denied, [])
  | Some h =>
      match queryPermission h with
      | inl e => (Throw e, [QueryPermission])
      | inr granted => (Return granted, [QueryPermission])
      | inr prompt =>
          match requestPermission h with
          | inl e => (Throw e, [QueryPermission; RequestPermission])
          | inr state => (Return state, [QueryPermission; RequestPermission])
          end
      | inr state => (Return state, [QueryPermission])
      end
  end.

(** ** Loading

    What a load installs is decided before any typing of the content, so
    these functions work on plain values. *)

(** [{ pages: {} }] *)
Definition empty_progress : jsval := JObj [(lit "pages", JObj [])].

(** The value [loadFromFile] assigns to [this.progress]; [parse] is how
    [JSON.parse(text)] ends. Whatever is thrown inside the [try] leads to
    the [catch]. *)
Definition loadFromFile_progress (parse : error + jsval) : jsval :=
  match parse with
  | inl _ => empty_progress
  | inr parsed =>
      if truthy parsed && typeof_object parsed then
        match get_property parsed (lit "pages") with
        | inr parsed_pages =>
            if truthy parsed_pages then parsed
            else JObj [(lit "pages", parsed)]
        | inl _ => empty_progress
        end
      else empty_progress
  end.

(** How the read of [boot] ends: the database does not open, the read
    fails, or it yields the record ([JUndefined] when there is none). *)
Inductive idb_read :=
  | OpenFails
  | GetFails
  | Got (stored : jsval).

(** The value of [this.progress] once [boot] has read the database,
    [before] being its value at the call. *)
Definition boot_progress (before : jsval) (r : idb_read) : jsval :=
  match r with
  | Got stored => if truthy stored then stored else before
  | _ => before
  end.

(** Iterating a string yields its code points: a high surrogate followed
    by a low one is one element. *)
Fixpoint code_points (s : jsstring) : list jsstring :=
  match s with
  | [] => []
  | c :: s' =>
      match s' with
      | d :: s'' =>
          if ((55296 <=? c) && (c <=? 56319) && (56320 <=? d) && (d <=? 57343))%N
          then [c; d] :: code_points s''
          else [c] :: code_points s'
      | [] => [[c]]
      end
  end.

(** [getSet] as far as the elements the [Set] is built from, on any value
    of [this.progress]: [this.progress.pages[this.PAGE_ID] || []], then
    the iteration [new Set] makes. The page's entry is read in full, own
    and inherited; a built-in object is truthy. *)
Definition getSet_elements (progress_value : jsval) (page : jsstring)
  : error + list jsval :=
  match get_property progress_value (lit "pages") with
  | inl e => inl e
  | inr pages_value =>
      match Get pages_value page with
      | inl e => inl e
      | inr (inl arr) =>
          if truthy arr then
            match arr with
            | JArr elems => inr elems
            | JStr s => inr (JStr <$> code_points s)
            | _ => inl TypeError
            end
          else inr []
      | inr (inr b) => iterate_builtin b
      end
  end.

(** ** Typed and untyped documents *)

Definition as_item (v : jsval) : option jsstring :=
  match v with JStr s => Some s | _ => None end.

Definition as_items (v : jsval) : option (list jsstring) :=
  match v with JArr elems => mapM as_item elems | _ => None end.

Definition as_pages (v : jsval) : option (gmap jsstring (list jsstring)) :=
  match v with
  | JObj props =>
      list_to_map <$> mapM (λ kv, (λ a, (kv.1, a)) <$> as_items kv.2) props
  | _ => None
  end.

(** The Progress Document a value is, if it has the document's shape: an
    object whose [pages] maps page identifiers to arrays of strings. *)
Definition as_document (v : jsval) : option document :=
  match v with
  | JObj props => p ← own_property props (lit "pages"); Doc <$> as_pages p
  | _ => None
  end.

(** The value a Progress Document is in the script: an object with a
    [pages] object that has one array of strings for each page. *)
Definition array_value (arr : list jsstring) : jsval := JArr (JStr <$> arr).

Definition value_of (d : document) : jsval :=
  JObj [(lit "pages",
         JObj ((λ kv, (kv.1, array_value kv.2)) <$> map_to_list (pages d)))].

(** ** The canonical form of the document *)

(** An array of learned items is canonical when it is sorted the way
    [sort()] leaves it and holds no item twice. *)
Definition canonical_array (arr : list jsstring) : Prop :=
  Sorted js_le arr ∧ NoDup arr.


(** The learned set of a page of a document. *)
Definition learned_set (d : document) (page : jsstring) : jsset :=
  new_Set (default [] (pages d !! page)).

(** ** Start-up and the hide button *)

Definition with_hideLearned (b : bool) (st : state) : state :=
  State (PAGE_ID st) (progress st) b (totalWords st) (learnedCount st)
    (wordCells st) (progressBar st) (progressFill st) (progressText st)
    (elements_store st) (document_words st) (hidden_rows st) (statusEl st)
    (btnHide st) (published st) (localStorage_hideLearned st)
    (idb_progress st).

(** The click handler of the hide button, registered by
    [setupEventListeners]. *)
Definition onHideClick : M unit :=
  modify (λ st, with_hideLearned (negb (hideLearned st)) st);;
  applyHide.

(** [idbGet(db, storeName, 'progress')]: the record, [None] when there is
    none. The record is one [saveProgressToDB] has put there, a Progress
    Document; what [boot] does with any other value is [boot_progress]. *)
Definition idbGet (io : idb_run) : M (option document) :=
  if tx_ok io then get idb_progress else throw DOMException.

(** [boot]. A stored document is an object and so truthy. *)
Definition boot (io : idb_run) : M unit :=
  try_catch
    (idbOpen io;;
     stored ← idbGet io;
     match stored with
     | Some d =>
         modify (with_progress d);;
         applyMarks;;
         modify (with_status "Прогрес завантажено з бази даних.")
     | None =>
         modify (with_status "Прогрес зберігається автоматично.");;
         applyMarks;;
         updateHideButton;;
         recalculateAndUpdateUI
     end)
    (modify (with_status "Прогрес зберігається автоматично.");;
     applyMarks;;
     updateHideButton;;
     recalculateAndUpdateUI).

(** [init]: the elements are looked up, the word cells cached, the
    listeners set up and [boot] started. *)
Definition init (io : idb_run) : M unit :=
  modify (λ st, with_wordCells (document_words st) st);;
  setupEventListeners;;
  boot io.

(** [new ProgressManager(pageId)] on a page that has just loaded; the
    outcome is that of the promise [boot] returns. The hide flag is
    [localStorage.getItem('hideLearned') === 'true']. *)
Definition new_ProgressManager (pageId : jsstring) (io : idb_run) : M unit :=
  modify (λ st,
    State pageId (Doc ∅)
      (bool_decide (localStorage_hideLearned st = Some true)) 0 0 []
      (progressBar st) (progressFill st) (progressText st)
      (elements_store st) (document_words st) (hidden_rows st) (statusEl st)
      (btnHide st) (published st) (localStorage_hideLearned st)
      (idb_progress st));;
  init io.

(* ===================================================================== *)
(** * The vocabulary of the statements *)
(* ===================================================================== *)

(** ** What saving, hiding and recounting leave alone *)

(** The part of a cell that painting the row and the title does not
    touch. *)
Definition core (c : cell) : jsstring * bool * option jsstring * nat :=
  (textContent c, learned c, listenerBound c, clickListeners c).

(** The part of the state that saving, hiding and recounting do not
    touch. *)
Definition kept (st : state) :=
  (PAGE_ID st, progress st, hideLearned st, core <$> elements_store st,
   document_words st, (progressBar st, progressFill st, progressText st)).

(** A computation frames the state when it leaves that part as it was,
    whether it returns or throws. *)
Definition frames {A} (m : M A) : Prop := ∀ st, kept (m st).2 = kept st.

(** ** Items and the learned set *)

(** The learned set of the active page. *)
Definition model_set (st : state) : jsset :=
  learned_set (progress st) (PAGE_ID st).

(** The page's entry can be read by [getSet]: the document has an entry
    of its own for the page, or the page identifier names nothing that a
    plain object inherits. *)
Definition readable (d : document) (page : jsstring) : Prop :=
  is_Some (pages d !! page) ∨ inherited_from Object_prototype page = None.

Global Instance readable_dec d page : Decision (readable d page).
Proof. unfold readable. apply _. Defined.

(** The identifier of an item: the trimmed text of its cell. *)
Definition item_id (c : cell) : jsstring := trim (textContent c).

(** The items of the page, each with its identifier and whether it is
    marked learned. *)
Definition items (st : state) : list (jsstring * bool) :=
  (λ c, (item_id c, learned c)) <$> elements_store st.

(** The number of items marked learned. *)
Definition marked_count (st : state) : nat :=
  length (filter (λ it, it.2 = true) (items st)).

(** No two items share an identifier. *)
Definition distinct_items (st : state) : Prop := NoDup (items st).*1.

(** The marks on the page show the model: the members of the learned set
    are the identifiers of the marked items. *)
Definition marks_agree (st : state) : Prop :=
  ∀ w, w ∈ model_set st ↔ (w, true) ∈ items st.

(** The state once the click handler has changed the set and the mark of
    [td], which it does before its first [await]; saving, hiding and
    recounting follow. *)
Definition toggled (st : state) (td : ref) (c : cell) : state :=
  let w := item_id c in
  let set := model_set st in
  let has := Set_has set w in
  with_progress
    (Doc (<[PAGE_ID st :=
              Array_sort (Set_spread (if has then Set_delete set w
                                      else Set_add set w))]>
            (pages (progress st))))
    (with_elements (<[td := set_learned (negb has) c]> (elements_store st)) st).

(** The page after a series of activations, each with the database's
    answer to its save. A handler that throws ends; the next activation
    runs all the same. *)
Fixpoint after_clicks (clicks : list (idb_run * ref)) (st : state) : state :=
  match clicks with
  | [] => st
  | (io, td) :: rest => after_clicks rest (onClick io td st).2
  end.

(** ** Counting *)

(** Whether the cell behind a reference carries the class [learned]. *)
Definition carries_learned (st : state) (td : ref) : bool :=
  match elements_store st !! td with
  | Some c => learned c
  | None => false
  end.

(** The number of items of the document that carry the learned flag. *)
Definition flagged_count (st : state) : nat :=
  length (filter (λ td, carries_learned st td = true) (document_words st)).

(** Every item of the document is an element. *)
Definition page_wf (st : state) : Prop :=
  ∀ td, td ∈ document_words st → is_Some (elements_store st !! td).

(** [round(100 * learned / total)] as the design document writes it, on
    the exact quotient: the nearest integer, the larger one of two equally
    near, and [0] when [total] is [0]. *)
Definition spec_percent (learned total : nat) : Z :=
  if decide (total = 0) then 0%Z
  else ((200 * Z.of_nat learned + Z.of_nat total) / (2 * Z.of_nat total))%Z.

(** ** Binding *)

(** What binding does to a cell: nothing when the Binding Flag is set,
    else it sets the flag and adds the click handler. *)
Definition bind_cell (c : cell) : cell :=
  if decide (listenerBound c = Some (lit "1")) then c
  else add_click_listener (set_listenerBound (lit "1") c).

(** The Binding Flag of the cell behind a reference together with the
    number of click handlers attached to it. *)
Definition binding (st : state) (td : ref) : option (option jsstring * nat) :=
  (λ c, (listenerBound c, clickListeners c)) <$> elements_store st !! td.

(** [bind_cell], seen on the flag and the number of handlers. *)
Definition bind_flag (b : option jsstring * nat) : option jsstring * nat :=
  if decide (b.1 = Some (lit "1")) then b else (Some (lit "1"), S b.2).

(** An item is unbound: it is an element, its flag is not set and it has
    no handler. *)
Definition unbound (st : state) (td : ref) : Prop :=
  ∃ flag, binding st td = Some (flag, 0) ∧ flag ≠ Some (lit "1").

(** A scan: binding each of a list of cells in turn. *)
Definition scan (tds : list ref) : M unit :=
  for_of tds (λ td, addWordCellListener (Some td)).

(** The word cells the callback meets in a batch of mutations, in the
    order it meets them. *)
Definition added_words (mutations : list mutation) : list ref :=
  flat_map (λ m, if is_childList m then flat_map words_of (addedNodes m)
                 else []) mutations.

(** The page after the callback has run [n] times on the same batch. *)
Definition after_callbacks (n : nat) (mutations : list mutation) (st : state)
  : state :=
  Nat.iter n (λ s, (observer_callback mutations s).2) st.

(** ** Painting and hiding *)

(** What [applyMarks] does to a cell, [set] being the learned set. *)
Definition paint (set : jsset) (c : cell) : cell :=
  set_title "Натисніть, щоб відмітити як вивчене"
    (set_learned (Set_has set (item_id c)) c).

(** Every cell in the cache is an element. *)
Definition cache_wf (st : state) : Prop :=
  ∀ td, td ∈ wordCells st → is_Some (elements_store st !! td).

(** The row of the cell behind a reference, if it is an element inside a
    row. *)
Definition row_of (st : state) (td : ref) : option row :=
  c ← elements_store st !! td; closest_tr c.

(** Every cell in the cache, and every word cell of the document, is an
    element inside a row. *)
Definition cache_in_rows (st : state) : Prop :=
  ∀ td, td ∈ wordCells st → is_Some (row_of st td).


(** The cached cell that decides how [applyHide] leaves a row: the last
    one in the cache that lies in it. *)
Definition deciding_cell (st : state) (r : row) : option ref :=
  last (filter (λ td, row_of st td = Some r) (wordCells st)).

(** What one round of the loop of [applyHide] does to the hidden rows. *)
Definition hide_step (st : state) (rows : gset row) (td : ref) : gset row :=
  match elements_store st !! td with
  | Some c =>
      match closest_tr c with
      | Some tr =>
          if hideLearned st && learned c then rows ∪ {[tr]} else rows ∖ {[tr]}
      | None => rows
      end
  | None => rows
  end.

(** The document lists every word cell once, in order. *)
Definition document_complete (st : state) : Prop :=
  document_words st = seq 0 (length (elements_store st)).

(** A computation preserves a view of the state when it leaves it as it
    was, whether it returns or throws. *)
Definition preserves {A B} (view : state → B) (m : M A) : Prop :=
  ∀ st, view (m st).2 = view st.

(** What of a cell painting leaves alone. *)
Definition unpainted (c : cell)
  : jsstring * option jsstring * nat * option row :=
  (textContent c, listenerBound c, clickListeners c, closest_tr c).

(** The page once [applyHide] has gone through the cached cells and
    returned. *)
Definition rows_hidden (st : state) : state :=
  with_btnHide (if hideLearned st then "👁️‍🗨️" else "👁️")
    (with_localStorage (hideLearned st)
       (with_hidden_rows
          (foldl (hide_step st) (hidden_rows st) (wordCells st)) st)).

(** The page once the loop of [applyMarks] has gone through the cached
    cells. *)
Definition marks_painted (st : state) : state :=
  with_elements
    (foldl (λ l td, alter (paint (model_set st)) td l)
           (elements_store st) (wordCells st))
    st.

(** What recounting leaves alone: all but the counters, the cache and the
    readout. *)
Definition beside_counters (st : state) :=
  (PAGE_ID st, progress st, hideLearned st, elements_store st,
   document_words st, hidden_rows st, statusEl st, btnHide st,
   localStorage_hideLearned st, idb_progress st,
   (progressBar st, progressFill st, progressText st)).

(** What neither hiding nor recounting nor binding touches: the model, the
    database record and the status text. *)
Definition model_and_store (st : state) :=
  (PAGE_ID st, progress st, hideLearned st, idb_progress st, statusEl st).

(** What only [applyHide] touches: the rows, the stored flag and the
    button. *)
Definition hiding (st : state) :=
  (hidden_rows st, localStorage_hideLearned st, btnHide st).


(** The page once [saveProgressToDB] has run, [io] being the database's
    answer. *)
Definition saved (io : idb_run) (st : state) : state :=
  if open_ok io && tx_ok io
  then with_status "Прогрес збережено." (with_idb (progress st) st)
  else with_status "Помилка збереження." st.




(** The document [boot] ends with: the record when the database gives
    one, else the one it started with. *)
Definition booted_document (io : idb_run) (st : state) : document :=
  if open_ok io && tx_ok io then default (progress st) (idb_progress st)
  else progress st.

(** The status text [boot] ends with. *)
Definition booted_status (io : idb_run) (st : state) : string :=
  if open_ok io && tx_ok io && bool_decide (is_Some (idb_progress st))
  then "Прогрес завантажено з бази даних."
  else "Прогрес зберігається автоматично.".

(** ** The shape of a stored value *)

(** A value has the wrapper: reading [pages] from it gives something
    truthy. *)
Definition wrapped (v : jsval) : Prop :=
  ∃ p, get_property v (lit "pages") = inr p ∧ truthy p = true.

(* ===================================================================== *)
(** * Example pages and contents *)
(* ===================================================================== *)

(** A word cell in row [tr], not marked and not bound. *)
Definition example_cell (text : string) (tr : row) : cell :=
  Cell (lit text) false None 0 "" (Some tr).

(** A page with three words, one to a row, before any of them is
    learned. *)
Definition example_page : state :=
  State (lit "verbs") (Doc ∅) false 0 0 [0; 1; 2] true true true
    [example_cell "sein" 0; example_cell " haben " 1; example_cell "werden" 2]
    [0; 1; 2] ∅ "" "" None None None.

(** Four activations: the first word, the second while the transaction
    aborts, the first again while the database does not open, the third. *)
Definition example_clicks : list (idb_run * ref) :=
  [(IdbRun true true, 0); (IdbRun true false, 1);
   (IdbRun false false, 0); (IdbRun true true, 2)].

(** A page on which the model holds two words and the document shows one
    item, not flagged. *)
Definition stale_page : state :=
  State (lit "verbs") (Doc (<[lit "verbs" := [lit "haben"; lit "sein"]]> ∅))
    false 0 0 [] true true true [example_cell "sein" 0] [0] ∅ "" "" None None
    None.

(** A page of [total] items, one to a row, of which the first [flagged]
    carry the class [learned]. *)
Definition counted_page (flagged total : nat) : state :=
  State (lit "verbs") (Doc ∅) false 0 0 [] true true true
    ((λ i, Cell (lit "Wort") (bool_decide (i < flagged)) None 0 "" (Some i))
       <$> seq 0 total)
    (seq 0 total) ∅ "" "" None None None.

(** A page with five rows that have just been inserted, and the batch of
    mutations that reports them: a table body holding the rows, each row
    holding some text and its word cell. *)
Definition fresh_rows : state :=
  State (lit "verbs") (Doc ∅) false 0 0 [] true true true
    [example_cell "sein" 0; example_cell "haben" 1; example_cell "werden" 2;
     example_cell "gehen" 3; example_cell "machen" 4]
    [0; 1; 2; 3; 4] ∅ "" "" None None None.

Definition inserted_row (td : ref) : node :=
  Element None [NonElement; Element (Some td) [NonElement]].

Definition insertion : list mutation :=
  [Mutation attributes [];
   Mutation childList
     [NonElement; Element None (inserted_row <$> [0; 1; 2; 3; 4])]].

(** A progress file whose array for [verbs] is neither sorted nor free of
    duplicates, and the document it is. *)
Definition unsorted_array : list jsstring :=
  [lit "sein"; lit "haben"; lit "sein"].

Definition unsorted_file : jsval :=
  JObj [(lit "pages",
         JObj [(lit "verbs", JArr (JStr <$> unsorted_array))])].

Definition unsorted_document : document :=
  Doc (<[lit "verbs" := unsorted_array]> ∅).

(** A legacy record: page identifiers mapped to arrays, with no [pages]
    around them. *)
Definition bare_mapping : jsval :=
  JObj [(lit "verbs", JArr [JStr (lit "haben")])].

(** A file that parses, and whose list for [verbs] is a number. *)
Definition malformed_file : jsval :=
  JObj [(lit "pages", JObj [(lit "verbs", JNum 5)])].

(** The document of a user who has learned two verbs, and the page of
    [example_page] as that user finds it after a reload: nothing marked or
    bound yet, the hide flag stored as on, the document in the database. *)
Definition two_verbs : document :=
  Doc (<[lit "verbs" := [lit "haben"; lit "sein"]]> ∅).

Definition reloaded_page : state :=
  State (lit "verbs") two_verbs true 0 0 [0; 1; 2] true true true
    [example_cell "sein" 0; example_cell " haben " 1; example_cell "werden" 2]
    [0; 1; 2] ∅ "" "" None (Some true) (Some two_verbs).

(** The same page on a return visit, before [boot] has read the record:
    the document in memory is still the empty one. *)
Definition returning_page : state := with_progress (Doc ∅) reloaded_page.

(** The same page with the two verbs marked, as [applyMarks] leaves the
    cells, the hide flag on and no row hidden yet. *)
Definition learned_cell (text : string) (tr : row) : cell :=
  Cell (lit text) true None 0 "" (Some tr).

Definition marked_page : state :=
  State (lit "verbs") two_verbs true 0 0 [0; 1; 2] true true true
    [learned_cell "sein" 0; learned_cell " haben " 1; example_cell "werden" 2]
    [0; 1; 2] ∅ "" "" None None (Some two_verbs).

(** A page whose table has two word cells in its first row, the first one
    marked, and a third word cell in a second row, marked; the hide flag
    is on. *)
Definition shared_row_page : state :=
  State (lit "verbs") two_verbs true 0 0 [0; 1; 2] true true true
    [learned_cell "sein" 0; example_cell "werden" 0; learned_cell "haben" 1]
    [0; 1; 2] ∅ "" "" None None (Some two_verbs).

(** A page whose second word cell stands outside any table row. *)
Definition rowless_page : state :=
  State (lit "verbs") two_verbs true 0 0 [0; 1; 2] true true true
    [learned_cell "sein" 0; Cell (lit "haben") true None 0 "" None;
     learned_cell "werden" 2]
    [0; 1; 2] ∅ "" "" None None (Some two_verbs).

(** The page of [example_page] under a page identifier that names a
    property of [Object.prototype]. *)
Definition constructor_page : state :=
  State (lit "constructor") (Doc ∅) false 0 0 [0; 1; 2] true true true
    [example_cell "sein" 0; example_cell " haben " 1; example_cell "werden" 2]
    [0; 1; 2] ∅ "" "" None None None.

(** The page of [example_page] as a user finds it whose record holds a
    word the page does not show. *)
Definition gehen_haben : document :=
  Doc (<[lit "verbs" := [lit "gehen"; lit "haben"]]> ∅).

Definition visited_page : state :=
  State (lit "verbs") (Doc ∅) false 0 0 [] true true true
    [example_cell "sein" 0; example_cell " haben " 1; example_cell "werden" 2]
    [0; 1; 2] ∅ "" "" None None (Some gehen_haben).

(* ===================================================================== *)
(** * Properties of the platform model *)
(* ===================================================================== *)

Section string_order.

Lemma js_ltb_irrefl x : js_ltb x x = false.
Proof. induction x as [|a x IH]; simpl; [done|]. by rewrite N.ltb_irrefl. Qed.

Lemma js_le_total_dec x y : js_le x y ∨ js_le y x.
Proof.
  unfold js_le. revert y.
  induction x as [|a x IH]; intros [|b y]; simpl; auto.
  destruct (N.ltb_spec a b), (N.ltb_spec b a); auto; lia.
Qed.

Lemma js_le_trans x y z : js_le x y → js_le y z → js_le x z.
Proof.
  unfold js_le. revert x y.
  induction z as [|c z IH]; intros [|a x] [|b y]; simpl; try done.
  destruct (N.ltb_spec b a), (N.ltb_spec a b), (N.ltb_spec c b),
    (N.ltb_spec b c), (N.ltb_spec c a), (N.ltb_spec a c);
    try done; try lia; eauto.
Qed.

Lemma js_le_antisym x y : js_le x y → js_le y x → x = y.
Proof.
  unfold js_le. revert y.
  induction x as [|a x IH]; intros [|b y]; simpl; try done.
  destruct (N.ltb_spec a b), (N.ltb_spec b a); try done; try lia.
  intros ??. f_equal; [lia | auto].
Qed.

Global Instance js_le_total : Total js_le.
Proof. intros x y. apply js_le_total_dec. Qed.
Global Instance js_le_transitive : Transitive js_le.
Proof. intros x y z. apply js_le_trans. Qed.
Global Instance js_le_antisymm : AntiSymm (=) js_le.
Proof. intros x y. apply js_le_antisym. Qed.

End string_order.

Section sorting.

Lemma Array_sort_sorted arr : Sorted js_le (Array_sort arr).
Proof. apply (Sorted_merge_sort js_le). Qed.

Lemma Array_sort_perm arr : Array_sort arr ≡ₚ arr.
Proof. apply (merge_sort_Permutation js_le). Qed.

(** Two sorted arrays with the same elements are the same array: the
    result of [sort()] depends neither on the engine's algorithm nor on
    the order the elements came in. *)
Lemma sort_unique (l1 l2 : list jsstring) :
  l1 ≡ₚ l2 → Sorted js_le l1 → Sorted js_le l2 → l1 = l2.
Proof. intros Hp H1 H2. by apply (Sorted_unique js_le). Qed.

Lemma Array_sort_order_irrelevant (l1 l2 : list jsstring) :
  l1 ≡ₚ l2 → Array_sort l1 = Array_sort l2.
Proof.
  intros Hp. apply sort_unique; auto using Array_sort_sorted.
  by rewrite !Array_sort_perm.
Qed.


Lemma elem_of_Array_sort_spread (set : jsset) w :
  w ∈ Array_sort (Set_spread set) ↔ w ∈ set.
Proof. rewrite Array_sort_perm. apply elem_of_elements. Qed.

(** Sorting a canonical array changes nothing. *)
Lemma Array_sort_canonical arr :
  canonical_array arr → Array_sort (Set_spread (new_Set arr)) = arr.
Proof.
  intros [Hs Hn]. apply sort_unique; auto using Array_sort_sorted.
  rewrite Array_sort_perm. unfold Set_spread, new_Set.
  by apply elements_list_to_set.
Qed.

End sorting.

(* ===================================================================== *)
(** * Learned-Set Model *)
(* ===================================================================== *)

Ltac run :=
  unfold mbind, M_bind, mret, M_ret, get, modify, throw, try_catch in *;
  simpl in *.

Section learned_set_model.

Lemma getSet_run st :
  readable (progress st) (PAGE_ID st) →
  getSet st = (Return (learned_set (progress st) (PAGE_ID st)), st).
Proof.
  intros [[arr Harr]|Hplain]; unfold getSet, learned_set; run.
  - by rewrite Harr.
  - rewrite Hplain. by destruct (pages (progress st) !! PAGE_ID st).
Qed.

(** A name that a plain object inherits, and for which the document has
    no entry, makes [getSet] throw: what the read finds is a function or
    [Object.prototype], and neither can be iterated. *)
Lemma inherited_not_iterable page b :
  inherited_from Object_prototype page = Some b →
  iterate_builtin b = inl TypeError.
Proof.
  unfold inherited_from. repeat case_decide; by intros [= <-].
Qed.

Lemma getSet_unreadable st :
  ¬ readable (progress st) (PAGE_ID st) →
  getSet st = (Throw TypeError, st).
Proof.
  intros Hn. unfold getSet. run.
  destruct (pages (progress st) !! PAGE_ID st) as [arr|] eqn:Harr.
  { destruct Hn. left. by rewrite Harr. }
  destruct (inherited_from Object_prototype (PAGE_ID st)) as [b|] eqn:Hb.
  - by rewrite (inherited_not_iterable _ _ Hb).
  - destruct Hn. by right.
Qed.

Lemma readable_insert d page arr :
  readable (Doc (<[page := arr]> (pages d))) page.
Proof. left. simpl. rewrite lookup_insert_eq. by eexists. Qed.

Lemma elem_of_learned_set d page w :
  w ∈ learned_set d page ↔ ∃ arr, pages d !! page = Some arr ∧ w ∈ arr.
Proof.
  unfold learned_set, new_Set. rewrite elem_of_list_to_set.
  destruct (pages d !! page) as [arr|]; simpl.
  - split; [eauto | by intros (? & [= <-] & ?)].
  - split; [by intros ?%elem_of_nil | by intros (? & ? & ?)].
Qed.

Lemma setSet_run set st :
  setSet set st =
    (Return tt,
     with_progress
       (Doc (<[PAGE_ID st := Array_sort (Set_spread set)]>
               (pages (progress st)))) st).
Proof. reflexivity. Qed.

Lemma learned_set_insert d page arr :
  learned_set (Doc (<[page := arr]> (pages d))) page = new_Set arr.
Proof. unfold learned_set. simpl. by rewrite lookup_insert_eq. Qed.

Lemma new_Set_sort_spread (set : jsset) :
  new_Set (Array_sort (Set_spread set)) = set.
Proof.
  apply set_eq. intros w. unfold new_Set.
  by rewrite elem_of_list_to_set, elem_of_Array_sort_spread.
Qed.


End learned_set_model.

(* ===================================================================== *)
(** * What the helpers leave alone *)
(* ===================================================================== *)

Section frames.

Lemma frames_ret {A} (a : A) : frames (mret a).
Proof. by intros st. Qed.

Lemma frames_throw {A} e : frames (@throw A e).
Proof. by intros st. Qed.

Lemma frames_get {A} (f : state → A) : frames (get f).
Proof. by intros st. Qed.

Lemma frames_modify f : (∀ st, kept (f st) = kept st) → frames (modify f).
Proof. intros Hf st. apply Hf. Qed.

Lemma frames_bind {A B} (m : M A) (f : A → M B) :
  frames m → (∀ a, frames (f a)) → frames (m ≫= f).
Proof.
  intros Hm Hf st. specialize (Hm st). run.
  destruct (m st) as [[a|e] st']; simpl in *; [|done].
  by rewrite Hf.
Qed.

Lemma frames_try_catch {A} (m h : M A) :
  frames m → frames h → frames (try_catch m h).
Proof.
  intros Hm Hh st. specialize (Hm st). run.
  destruct (m st) as [[a|e] st']; simpl in *; [done|].
  by rewrite Hh.
Qed.

Lemma frames_for_of {A} (xs : list A) body :
  (∀ x, frames (body x)) → frames (for_of xs body).
Proof.
  intros Hb. induction xs as [|x xs IH]; simpl.
  - apply frames_ret.
  - apply frames_bind; auto.
Qed.

Lemma frames_element td : frames (element td).
Proof. intros st. unfold element. by destruct (_ !! _). Qed.

Lemma frames_update_element td f :
  (∀ c, core (f c) = core c) → frames (update_element td f).
Proof.
  intros Hf st. unfold update_element, element. run.
  destruct (elements_store st !! td) as [c|] eqn:Hc; simpl; [|done].
  unfold kept; simpl. do 3 f_equal.
  rewrite list_fmap_insert, Hf. apply list_insert_id.
  by rewrite list_lookup_fmap, Hc.
Qed.

Lemma frames_updateHideButton : frames updateHideButton.
Proof. by apply frames_modify. Qed.

Lemma frames_applyHide : frames applyHide.
Proof.
  unfold applyHide.
  apply frames_bind; [apply frames_get | intros cells].
  apply frames_bind; [|intros _].
  - apply frames_for_of. intros td.
    apply frames_bind; [apply frames_element | intros c].
    destruct (closest_tr c); [|apply frames_throw].
    apply frames_bind; [apply frames_get | intros hide].
    by apply frames_modify.
  - apply frames_bind; [by apply frames_modify | intros _].
    apply frames_updateHideButton.
Qed.

Lemma frames_saveProgressToDB io : frames (saveProgressToDB io).
Proof.
  unfold saveProgressToDB, idbOpen, idbPut.
  apply frames_try_catch; [|by apply frames_modify].
  repeat (apply frames_bind; [|intros ?]);
    repeat case_match;
    first [ apply frames_ret | apply frames_throw | by apply frames_modify ].
Qed.

Lemma frames_getSet : frames getSet.
Proof. intros st. unfold getSet. run. by repeat case_match. Qed.

Lemma frames_count_learned tds n : frames (count_learned tds n).
Proof.
  revert n. induction tds as [|td tds IH]; intros n; simpl.
  - apply frames_ret.
  - apply frames_bind; [apply frames_element | auto].
Qed.

Lemma frames_computeTotals : frames computeTotals.
Proof.
  unfold computeTotals.
  repeat first
    [ apply frames_getSet | apply frames_get | apply frames_count_learned
    | by apply frames_modify | apply frames_bind; [|intros ?] ].
Qed.

Lemma frames_updateProgressUI : frames updateProgressUI.
Proof.
  unfold updateProgressUI.
  apply frames_bind; [apply frames_get | intros st].
  case_match; [apply frames_ret | by apply frames_modify].
Qed.

Lemma frames_recalculateAndUpdateUI : frames recalculateAndUpdateUI.
Proof.
  apply frames_bind;
    [apply frames_computeTotals | intros; apply frames_updateProgressUI].
Qed.

End frames.

(* ===================================================================== *)
(** * The toggle *)
(* ===================================================================== *)

Section toggle.

Lemma bind_Return {A B} (m : M A) (f : A → M B) st a st' :
  m st = (Return a, st') → (m ≫= f) st = f a st'.
Proof. intros H. run. by rewrite H. Qed.

Lemma bind_Throw {A B} (m : M A) (f : A → M B) st e st' :
  m st = (Throw e, st') → (m ≫= f) st = (Throw e, st').
Proof. intros H. run. by rewrite H. Qed.

Lemma element_run td st c :
  elements_store st !! td = Some c → element td st = (Return c, st).
Proof. intros H. unfold element. by rewrite H. Qed.

Lemma update_element_run td f st c :
  elements_store st !! td = Some c →
  update_element td f st =
    (Return tt, with_elements (<[td := f c]> (elements_store st)) st).
Proof.
  intros H. unfold update_element.
  by rewrite (bind_Return _ _ _ _ _ (element_run _ _ _ H)).
Qed.

Lemma onClick_dangling io td st :
  elements_store st !! td = None → onClick io td st = (Throw TypeError, st).
Proof.
  intros H. unfold onClick. apply bind_Throw. unfold element. by rewrite H.
Qed.

(** Under a page identifier that [getSet] cannot read the handler ends
    there, before it has changed anything. *)
Lemma onClick_unreadable io td st :
  ¬ readable (progress st) (PAGE_ID st) →
  (onClick io td st).1 = Throw TypeError ∧ (onClick io td st).2 = st.
Proof.
  intros Hn. destruct (elements_store st !! td) as [c|] eqn:Hc.
  - unfold onClick. rewrite (bind_Return _ _ _ _ _ (element_run _ _ _ Hc)).
    by rewrite (bind_Throw _ _ _ _ _ (getSet_unreadable st Hn)).
  - by rewrite (onClick_dangling io td st Hc).
Qed.

Lemma onClick_kept io td st c :
  readable (progress st) (PAGE_ID st) →
  elements_store st !! td = Some c →
  kept (onClick io td st).2 = kept (toggled st td c).
Proof.
  intros Hr Hc. unfold onClick.
  rewrite (bind_Return _ _ _ _ _ (element_run _ _ _ Hc)).
  rewrite (bind_Return _ _ _ _ _ (getSet_run st Hr)).
  fold (model_set st). fold (item_id c).
  assert (frames (saveProgressToDB io;; applyHide;; recalculateAndUpdateUI))
    as Hrest.
  { apply frames_bind; [apply frames_saveProgressToDB | intros _].
    apply frames_bind; [apply frames_applyHide | intros _].
    apply frames_recalculateAndUpdateUI. }
  unfold toggled.
  destruct (Set_has (model_set st) (item_id c)) eqn:Hhas; simpl.
  - erewrite bind_Return; last first.
    { erewrite bind_Return; [reflexivity|]. by apply update_element_run. }
    erewrite bind_Return; [|apply setSet_run]. by rewrite Hrest.
  - erewrite bind_Return; last first.
    { erewrite bind_Return; [reflexivity|]. by apply update_element_run. }
    erewrite bind_Return; [|apply setSet_run]. by rewrite Hrest.
Qed.

Lemma kept_model_set st st' : kept st = kept st' → model_set st = model_set st'.
Proof. unfold kept, model_set. by intros [= -> -> _ _ _]. Qed.

Lemma items_core st :
  items st = (λ k, (trim k.1.1.1, k.1.1.2)) <$> (core <$> elements_store st).
Proof. unfold items. by rewrite <-list_fmap_compose. Qed.

Lemma kept_items st st' : kept st = kept st' → items st = items st'.
Proof. rewrite !items_core. unfold kept. by intros [= _ _ _ -> _]. Qed.

Lemma model_set_toggled st td c :
  model_set (toggled st td c) =
    if Set_has (model_set st) (item_id c)
    then Set_delete (model_set st) (item_id c)
    else Set_add (model_set st) (item_id c).
Proof.
  unfold toggled, model_set at 1. simpl.
  by rewrite learned_set_insert, new_Set_sort_spread.
Qed.

Lemma items_toggled st td c :
  items (toggled st td c) =
    <[td := (item_id c, negb (Set_has (model_set st) (item_id c)))]> (items st).
Proof. unfold toggled, items. simpl. by rewrite list_fmap_insert. Qed.

Lemma items_lookup st td c :
  elements_store st !! td = Some c →
  items st !! td = Some (item_id c, learned c).
Proof. intros H. unfold items. by rewrite list_lookup_fmap, H. Qed.

End toggle.

Section toggle_counting.

Implicit Types (l : list (jsstring * bool)) (s : jsset).

Lemma distinct_lookup l i j w b b' :
  NoDup l.*1 → l !! i = Some (w, b) → l !! j = Some (w, b') → i = j.
Proof.
  intros Hnd Hi Hj. apply (NoDup_lookup _ _ _ w Hnd).
  - by rewrite list_lookup_fmap, Hi.
  - by rewrite list_lookup_fmap, Hj.
Qed.

Lemma toggle_items_agree l s td w b :
  NoDup l.*1 → l !! td = Some (w, b) →
  (∀ x, x ∈ s ↔ (x, true) ∈ l) →
  ∀ x, x ∈ (if Set_has s w then Set_delete s w else Set_add s w) ↔
       (x, true) ∈ <[td := (w, negb (Set_has s w))]> l.
Proof.
  intros Hnd Htd Hs x.
  assert (td < length l) as Hlt by eauto using lookup_lt_Some.
  rewrite list_elem_of_lookup. setoid_rewrite list_lookup_insert_Some.
  unfold Set_has, Set_delete, Set_add.
  case_bool_decide as Hw; simpl.
  - rewrite elem_of_difference, elem_of_singleton, Hs,
      (list_elem_of_lookup l (x, true)).
    split.
    + intros [[j Hj] Hne]. exists j. right. split; [|done].
      intros <-. rewrite Htd in Hj. congruence.
    + intros [j [(_ & [=] & _) | [Hne Hj]]].
      split; [eauto|]. intros ->.
      by apply Hne, (distinct_lookup l td j w b true).
  - rewrite elem_of_union, elem_of_singleton, Hs,
      (list_elem_of_lookup l (x, true)).
    split.
    + intros [[j Hj] | ->].
      * exists j. right. split; [|done].
        intros <-. rewrite Htd in Hj. simplify_eq.
        apply Hw, Hs, list_elem_of_lookup. eauto.
      * exists td. by left.
    + intros [j [(_ & [= <-] & _) | [Hne Hj]]]; [by right | left; eauto].
Qed.

Lemma agree_size l s :
  NoDup l.*1 → (∀ x, x ∈ s ↔ (x, true) ∈ l) →
  size s = length (filter (λ it, it.2 = true) l).
Proof.
  intros Hnd Hs.
  assert (s = list_to_set (filter (λ it, it.2 = true) l).*1) as ->.
  { apply set_eq. intros x.
    rewrite Hs, elem_of_list_to_set, list_elem_of_fmap. split.
    - intros Hx. exists (x, true). split; [done|].
      by apply list_elem_of_filter.
    - intros ([y b] & -> & [Hb Hy]%list_elem_of_filter).
      simpl in *. by subst. }
  rewrite size_list_to_set, length_fmap; [done|].
  eapply sublist_NoDup; [exact Hnd|].
  apply fmap_sublist, sublist_filter.
Qed.

End toggle_counting.

Section toggle_effect.

Lemma onClick_model_set io td st c :
  readable (progress st) (PAGE_ID st) →
  elements_store st !! td = Some c →
  model_set (onClick io td st).2 =
    if Set_has (model_set st) (item_id c)
    then Set_delete (model_set st) (item_id c)
    else Set_add (model_set st) (item_id c).
Proof.
  intros Hr Hc. rewrite (kept_model_set _ _ (onClick_kept io td st c Hr Hc)).
  apply model_set_toggled.
Qed.

Lemma onClick_items io td st c :
  readable (progress st) (PAGE_ID st) →
  elements_store st !! td = Some c →
  items (onClick io td st).2 =
    <[td := (item_id c, negb (Set_has (model_set st) (item_id c)))]> (items st).
Proof.
  intros Hr Hc. rewrite (kept_items _ _ (onClick_kept io td st c Hr Hc)).
  apply items_toggled.
Qed.

(** After the handler the reference still leads to the same item. *)
Lemma onClick_same_item io td st c :
  elements_store st !! td = Some c →
  ∃ c', elements_store (onClick io td st).2 !! td = Some c' ∧
        item_id c' = item_id c.
Proof.
  intros Hc. destruct (decide (readable (progress st) (PAGE_ID st))) as [Hr|Hn].
  - pose proof (onClick_items io td st c Hr Hc) as Hit.
    assert (td < length (items st)) as Hlt.
    { unfold items. rewrite length_fmap. eauto using lookup_lt_Some. }
    apply (f_equal (.!! td)) in Hit.
    rewrite list_lookup_insert_eq in Hit by done.
    unfold items in Hit at 1. rewrite list_lookup_fmap in Hit.
    destruct (elements_store (onClick io td st).2 !! td) as [c'|]; [|done].
    exists c'. split; [done|]. by injection Hit.
  - destruct (onClick_unreadable io td st Hn) as [_ ->]. eauto.
Qed.

(** Once the handler has got past [getSet] the page has an entry of its
    own, and [getSet] gets past it every time after. *)
Lemma onClick_readable io td st :
  readable (progress st) (PAGE_ID st) →
  readable (progress (onClick io td st).2) (PAGE_ID (onClick io td st).2).
Proof.
  intros Hr. destruct (elements_store st !! td) as [c|] eqn:Hc.
  - pose proof (onClick_kept io td st c Hr Hc) as Hk. unfold kept in Hk.
    injection Hk as -> -> _ _ _ _. apply readable_insert.
  - by rewrite (onClick_dangling io td st Hc).
Qed.

Lemma onClick_twice io1 io2 td st :
  model_set (after_clicks [(io1, td); (io2, td)] st) = model_set st.
Proof.
  simpl. destruct (decide (readable (progress st) (PAGE_ID st))) as [Hr|Hn];
    [destruct (elements_store st !! td) as [c|] eqn:Hc|].
  - destruct (onClick_same_item io1 td st c Hc) as (c' & Hc' & Hid).
    rewrite (onClick_model_set io2 td _ c' (onClick_readable io1 td st Hr) Hc'),
      Hid.
    rewrite (onClick_model_set io1 td st c Hr Hc).
    unfold Set_has, Set_delete, Set_add. apply set_eq. intros x.
    destruct (decide (x = item_id c)) as [->|];
      repeat case_bool_decide;
      rewrite ?elem_of_union, ?elem_of_difference, ?elem_of_union,
        ?elem_of_singleton in *; tauto.
  - rewrite (onClick_dangling io1 td st Hc). simpl.
    by rewrite (onClick_dangling io2 td st Hc).
  - destruct (onClick_unreadable io1 td st Hn) as [_ ->].
    by destruct (onClick_unreadable io2 td st Hn) as [_ ->].
Qed.

Lemma onClick_invariant io td st :
  distinct_items st → marks_agree st →
  distinct_items (onClick io td st).2 ∧ marks_agree (onClick io td st).2.
Proof.
  intros Hnd Hag.
  destruct (decide (readable (progress st) (PAGE_ID st))) as [Hr|Hn];
    [|by destruct (onClick_unreadable io td st Hn) as [_ ->]].
  destruct (elements_store st !! td) as [c|] eqn:Hc;
    [|by rewrite (onClick_dangling _ td st Hc)].
  pose proof (items_lookup st td c Hc) as Hit.
  unfold distinct_items, marks_agree.
  rewrite (onClick_items io td st c Hr Hc), (onClick_model_set io td st c Hr Hc).
  split.
  - rewrite list_fmap_insert. simpl. rewrite list_insert_id; [done|].
    by rewrite list_lookup_fmap, Hit.
  - by apply (toggle_items_agree _ _ _ _ (learned c)).
Qed.

Lemma after_clicks_invariant clicks st :
  distinct_items st → marks_agree st →
  distinct_items (after_clicks clicks st) ∧
  marks_agree (after_clicks clicks st).
Proof.
  revert st. induction clicks as [|[io td] clicks IH]; intros st Hnd Hag;
    simpl; [done|].
  destruct (onClick_invariant io td st Hnd Hag). by apply IH.
Qed.

End toggle_effect.

(** C2, as the claim states it, fails in two ways. The size of the learned
    set is the number of marked items only on a page whose marks show the
    set: [visited_page] has a record with a word the page does not list,
    so once the manager has started the set has two members and one item
    is marked, and after a toggle of another item three and two. And
    under a page identifier that a plain object inherits, here
    [constructor], the handler throws in [getSet] and inserts nothing. *)
Lemma toggle_count_needs_agreement :
  let started :=
    (new_ProgressManager (lit "verbs") (IdbRun true true) visited_page).2 in
  distinct_items started ∧
  Set_size (model_set started) = 2 ∧ marked_count started = 1 ∧
  Set_size (model_set (after_clicks [(IdbRun true true, 0)] started)) = 3 ∧
  marked_count (after_clicks [(IdbRun true true, 0)] started) = 2 ∧
  (lit "sein" ∉ model_set constructor_page) ∧
  onClick (IdbRun true true) 0 constructor_page
    = (Throw TypeError, constructor_page).
Proof.
  intros started. split; [compute_done|].
  split; [by vm_compute|]. split; [by vm_compute|].
  split; [by vm_compute|]. split; [by vm_compute|].
  split; [by vm_compute|]. by vm_compute.
Qed.

(** C2, amended. Under a page identifier that has an entry of its own in
    the document or names nothing a plain object inherits, one activation
    of an item's toggle puts its identifier into the learned set if it was
    absent and takes it out if it was present, and changes the membership
    of no other identifier; under any other page identifier the handler
    throws and changes nothing. In both cases two activations of the same
    item leave the set as it was; and on a page whose items have distinct
    identifiers and whose marks show the model, after any series of
    activations the size of the learned set is the number of items marked
    learned. *)
Theorem toggle_membership_and_count :
  (∀ io td st c,
     readable (progress st) (PAGE_ID st) → elements_store st !! td = Some c →
     let st' := (onClick io td st).2 in
     (item_id c ∈ model_set st' ↔ item_id c ∉ model_set st) ∧
     (∀ x, x ≠ item_id c → x ∈ model_set st' ↔ x ∈ model_set st)) ∧
  (∀ io td st, ¬ readable (progress st) (PAGE_ID st) →
     (onClick io td st).1 = Throw TypeError ∧ (onClick io td st).2 = st) ∧
  (∀ io1 io2 td st,
     model_set (after_clicks [(io1, td); (io2, td)] st) = model_set st) ∧
  (∀ clicks st, distinct_items st → marks_agree st →
     Set_size (model_set (after_clicks clicks st)) =
       marked_count (after_clicks clicks st)).
Proof.
  split; [|split; [|split]].
  - intros io td st c Hr Hc. simpl.
    rewrite (onClick_model_set io td st c Hr Hc).
    unfold Set_has, Set_delete, Set_add.
    split; [|intros x Hx]; case_bool_decide;
      rewrite ?elem_of_union, ?elem_of_difference, ?elem_of_singleton; tauto.
  - apply onClick_unreadable.
  - apply onClick_twice.
  - intros clicks st Hnd Hag.
    destruct (after_clicks_invariant clicks st Hnd Hag) as [Hnd' Hag'].
    by apply agree_size.
Qed.

Lemma example_page_agrees : marks_agree example_page.
Proof.
  intros w. unfold model_set. rewrite elem_of_learned_set. split.
  - by intros (arr & Harr & _).
  - intros Hw. exfalso. vm_compute in Hw.
    repeat (apply elem_of_cons in Hw as [[=]|Hw]). by apply elem_of_nil in Hw.
Qed.

Lemma toggle_membership_and_count_witness :
  distinct_items example_page ∧ marks_agree example_page ∧
  Set_size (model_set (after_clicks example_clicks example_page)) =
    marked_count (after_clicks example_clicks example_page) ∧
  marked_count (after_clicks example_clicks example_page) = 2.
Proof.
  assert (distinct_items example_page) as Hnd by compute_done.
  pose proof example_page_agrees as Hag.
  destruct toggle_membership_and_count as (_ & _ & _ & Hcount).
  split; [exact Hnd|]. split; [exact Hag|].
  split; [by apply Hcount | by vm_compute].
Defined.

Section documents_as_values.

Lemma own_property_fmap (l : list (jsstring * list jsstring)) k :
  own_property ((λ kv, (kv.1, array_value kv.2)) <$> l) k =
    array_value <$> (list_to_map l : gmap jsstring (list jsstring)) !! k.
Proof.
  induction l as [|[k' arr] l IH]; simpl; [by rewrite lookup_empty|].
  rewrite lookup_insert. by case_decide.
Qed.

Lemma own_property_pages (m : gmap jsstring (list jsstring)) k :
  own_property ((λ kv, (kv.1, array_value kv.2)) <$> map_to_list m) k =
    array_value <$> m !! k.
Proof. by rewrite own_property_fmap, list_to_map_to_list. Qed.

(** On the value of a Progress Document the untyped [getSet] finds the
    elements of the page's array when the page has an entry, and else what
    the typed one finds: what [Object.prototype] has under the name. *)
Lemma getSet_elements_value_of d page :
  getSet_elements (value_of d) page =
    match pages d !! page with
    | Some arr => inr (JStr <$> arr)
    | None =>
        match inherited_from Object_prototype page with
        | Some b => iterate_builtin b
        | None => inr []
        end
    end.
Proof.
  unfold getSet_elements, value_of.
  cbn [get_property own_property default]. rewrite decide_True by done.
  cbn [default id]. unfold Get. cbn [prototype_of own].
  rewrite own_property_pages.
  destruct (pages d !! page) as [arr|]; [done|]. cbn [fmap option_fmap option_map].
  by destruct (inherited_from Object_prototype page).
Qed.

(** No built-in prototype has a property named [pages]: reading it in full
    gives what [get_property] gives. *)
Lemma Get_pages v :
  Get v (lit "pages") =
    match get_property v (lit "pages") with
    | inl e => inl e
    | inr p => inr (inl p)
    end.
Proof.
  unfold Get, get_property, own.
  destruct v as [| |b|z|s|elems|props]; cbn [prototype_of]; try done.
  by destruct (own_property props (lit "pages")).
Qed.

Lemma as_items_array_value arr : as_items (array_value arr) = Some arr.
Proof.
  unfold as_items, array_value. induction arr as [|w arr IH]; [done|].
  rewrite fmap_cons. cbn [mapM as_item]. by rewrite IH.
Qed.

(** Reading back the value of a document gives the document. *)
Lemma as_document_value_of d : as_document (value_of d) = Some d.
Proof.
  destruct d as [m]. unfold as_document, value_of.
  cbn [own_property pages]. rewrite decide_True by done. simpl.
  assert (∀ l : list (jsstring * list jsstring),
            mapM (λ kv, (λ a, (kv.1, a)) <$> as_items kv.2)
                 ((λ kv, (kv.1, array_value kv.2)) <$> l) = Some l) as Hl.
  { induction l as [|[k arr] l IH]; [done|].
    rewrite fmap_cons. cbn [mapM fst snd].
    by rewrite as_items_array_value, IH. }
  by rewrite Hl; simpl; rewrite list_to_map_to_list.
Qed.

End documents_as_values.

(** C9, as the claim states it, fails: the pages of the document are a
    plain object, and under a page identifier that such an object
    inherits a property for, [getSet] reads that property when the
    document has no entry of its own. On the empty document it throws for
    [constructor], [toString], [hasOwnProperty] and [__proto__], typed
    and untyped alike. *)
Lemma getSet_throws_on_inherited_name :
  progress constructor_page = Doc ∅ ∧
  PAGE_ID constructor_page = lit "constructor" ∧
  getSet constructor_page = (Throw TypeError, constructor_page) ∧
  getSet_elements empty_progress (lit "constructor") = inl TypeError ∧
  getSet_elements empty_progress (lit "toString") = inl TypeError ∧
  getSet_elements empty_progress (lit "hasOwnProperty") = inl TypeError ∧
  getSet_elements empty_progress (lit "__proto__") = inl TypeError.
Proof. repeat split; by vm_compute. Qed.

(** C9, amended. Whatever the Progress Document, under a page identifier
    that has an entry of its own in it or names nothing a plain object
    inherits, [getSet] returns, changes nothing, and the set it returns
    has exactly the members of the page's array; it is the empty set when
    the document has no entry for the page. Read without types, on the
    value such a document is in the script, [getSet] gets through to the
    elements of the array and does not throw. *)
Theorem getSet_total (st : state) :
  readable (progress st) (PAGE_ID st) →
  (∃ set, getSet st = (Return set, st) ∧
     (∀ w, w ∈ set ↔
           ∃ arr, pages (progress st) !! PAGE_ID st = Some arr ∧ w ∈ arr) ∧
     (pages (progress st) !! PAGE_ID st = None → set = ∅)) ∧
  getSet_elements (value_of (progress st)) (PAGE_ID st) =
    inr (JStr <$> default [] (pages (progress st) !! PAGE_ID st)).
Proof.
  intros Hr. split.
  - exists (learned_set (progress st) (PAGE_ID st)).
    split; [by apply getSet_run|].
    split; [intros w; apply elem_of_learned_set|].
    intros Hnone. unfold learned_set. by rewrite Hnone.
  - rewrite getSet_elements_value_of.
    destruct (pages (progress st) !! PAGE_ID st) as [arr|] eqn:Harr; [done|].
    destruct Hr as [[? ?] | ->]; [congruence | done].
Qed.

Lemma getSet_total_witness :
  readable (progress stale_page) (PAGE_ID stale_page) ∧
  readable (progress example_page) (PAGE_ID example_page) ∧
  getSet stale_page
    = (Return (new_Set [lit "haben"; lit "sein"]), stale_page) ∧
  getSet example_page = (Return ∅, example_page).
Proof.
  assert (readable (progress stale_page) (PAGE_ID stale_page)) as Hr1
    by (left; by eexists).
  assert (readable (progress example_page) (PAGE_ID example_page)) as Hr2
    by (by right).
  split; [exact Hr1|]. split; [exact Hr2|].
  destruct (getSet_total stale_page Hr1) as [(set1 & Hrun1 & _) _].
  destruct (getSet_total example_page Hr2) as [(set2 & Hrun2 & _ & Hnone) _].
  split.
  - rewrite Hrun1. rewrite (getSet_run _ Hr1) in Hrun1.
    by injection Hrun1 as <-.
  - rewrite Hrun2. by rewrite Hnone.
Defined.

(* ===================================================================== *)
(** * Canonical form of the stored arrays *)
(* ===================================================================== *)

Section canonical_form.



(** A value that has the shape of a document is installed as it is by
    both loads. *)
Lemma as_document_truthy_pages v d :
  as_document v = Some d →
  ∃ props p, v = JObj props ∧ own_property props (lit "pages") = Some p ∧
             truthy p = true.
Proof.
  destruct v as [| | | | | |props]; try done. simpl.
  destruct (own_property props (lit "pages")) as [p|] eqn:Hp; [|done].
  simpl. intros Hd. exists props, p.
  split; [done|]. split; [done|]. by destruct p.
Qed.

Lemma loadFromFile_progress_document v d :
  as_document v = Some d → loadFromFile_progress (inr v) = v.
Proof.
  intros (props & p & -> & Hp & Ht)%as_document_truthy_pages.
  unfold loadFromFile_progress, get_property.
  cbn [truthy typeof_object andb]. rewrite Hp. cbn [default id]. by rewrite Ht.
Qed.




End canonical_form.




(* ===================================================================== *)
(** * Progress Aggregator *)
(* ===================================================================== *)

Section aggregator.

Lemma count_learned_run st tds n :
  (∀ td, td ∈ tds → is_Some (elements_store st !! td)) →
  count_learned tds n st =
    (Return (n + length (filter (λ td, carries_learned st td = true) tds)), st).
Proof.
  revert n. induction tds as [|td tds IH]; intros n Hwf; simpl.
  - by rewrite Nat.add_0_r.
  - destruct (Hwf td) as [c Hc]; [by left|].
    rewrite (bind_Return _ _ _ _ _ (element_run _ _ _ Hc)).
    assert (carries_learned st td = learned c) as Hcl.
    { unfold carries_learned. by rewrite Hc. }
    rewrite IH by (intros ??; apply Hwf; by right).
    rewrite filter_cons, Hcl.
    destruct (learned c); simpl; do 2 f_equal; lia.
Qed.

Lemma computeTotals_run st :
  readable (progress st) (PAGE_ID st) → page_wf st →
  computeTotals st =
    (Return tt,
     with_learnedCount (flagged_count st `max` Set_size (model_set st))
       (with_totalWords (length (document_words st))
          (with_wordCells (document_words st) st))).
Proof.
  intros Hr Hwf. unfold computeTotals.
  erewrite bind_Return; [|reflexivity].
  erewrite bind_Return; [|by apply getSet_run].
  erewrite bind_Return; [|reflexivity].
  erewrite bind_Return; [|reflexivity].
  erewrite bind_Return; [|by apply count_learned_run].
  reflexivity.
Qed.

Lemma updateProgressUI_run st :
  progressBar st = true → progressFill st = true → progressText st = true →
  updateProgressUI st =
    (Return tt,
     with_published
       (Readout (learnedCount st `min` totalWords st) (totalWords st)
          (percent_of (learnedCount st `min` totalWords st) (totalWords st)))
       st).
Proof.
  intros Hb Hf Ht. unfold updateProgressUI.
  erewrite bind_Return; [|reflexivity]. simpl. by rewrite Hb, Hf, Ht.
Qed.

(** With one of the three progress elements missing nothing is
    published. *)
Lemma updateProgressUI_without_elements st :
  progressBar st && progressFill st && progressText st = false →
  updateProgressUI st = (Return tt, st).
Proof.
  intros H. unfold updateProgressUI.
  erewrite bind_Return; [|reflexivity]. simpl. by rewrite H.
Qed.

End aggregator.

(** C1, as the claim states it, fails: the published learned value is
    capped by the number of items. On [stale_page] the learned set has two
    members and the document one item, unflagged: the maximum is 2 and the
    readout says 1 of 1. And not every state gets a readout: under the
    page identifier [constructor], which a plain object inherits, the
    recount throws in [getSet] and publishes nothing. *)
Lemma recompute_caps_learned :
  flagged_count stale_page `max` Set_size (model_set stale_page) = 2 ∧
  published (recalculateAndUpdateUI stale_page).2
    = Some (Readout 1 1 (Some 100%Z)) ∧
  (recalculateAndUpdateUI constructor_page).1 = Throw TypeError ∧
  published (recalculateAndUpdateUI constructor_page).2 = None.
Proof. repeat split; by vm_compute. Qed.

(** C1, amended. Under a page identifier that has an entry of its own in
    the document or names nothing a plain object inherits, on a page
    whose word cells are elements and when the three progress elements
    are present, [recalculateAndUpdateUI] returns,
    keeps in [learnedCount] the maximum of the number of flagged items and
    the size of the learned set of the active page, and publishes as
    learned value the smaller of that maximum and the number of items,
    with the number of items as total. *)
Theorem recompute_publishes_capped_maximum (st : state) :
  readable (progress st) (PAGE_ID st) →
  page_wf st →
  progressBar st = true → progressFill st = true → progressText st = true →
  let total := length (document_words st) in
  let most := flagged_count st `max` Set_size (model_set st) in
  ∃ st', recalculateAndUpdateUI st = (Return tt, st') ∧
    totalWords st' = total ∧
    learnedCount st' = most ∧
    published st' =
      Some (Readout (most `min` total) total (percent_of (most `min` total) total)) ∧
    progress st' = progress st.
Proof.
  intros Hr Hwf Hb Hf Ht total most. unfold recalculateAndUpdateUI.
  erewrite bind_Return; [|by apply computeTotals_run].
  rewrite updateProgressUI_run by done. eauto 10.
Qed.

Lemma recompute_publishes_capped_maximum_witness :
  readable (progress stale_page) (PAGE_ID stale_page) ∧
  page_wf stale_page ∧
  ∃ st', recalculateAndUpdateUI stale_page = (Return tt, st') ∧
    totalWords st' = 1 ∧ learnedCount st' = 2 ∧
    published st' = Some (Readout 1 1 (percent_of 1 1)) ∧
    progress st' = progress stale_page.
Proof.
  assert (page_wf stale_page) as Hwf.
  { intros td Htd. apply elem_of_cons in Htd as [->|Htd]; [by eexists|].
    by apply elem_of_nil in Htd. }
  assert (readable (progress stale_page) (PAGE_ID stale_page)) as Hr
    by (left; by eexists).
  split; [exact Hr|]. split; [exact Hwf|].
  exact (recompute_publishes_capped_maximum stale_page Hr Hwf
           eq_refl eq_refl eq_refl).
Defined.

Section percentage.

(** 14.5 and 12.5 are doubles, and [Math.round] takes both up. *)
Example Math_round_tie_up :
  Math_round (S754_finite false 29 (-1)) = Some 15%Z ∧
  Math_round (S754_finite false 25 (-1)) = Some 13%Z ∧
  Math_round (S754_finite true 3 (-1)) = Some (-1)%Z.
Proof. by vm_compute. Qed.

(** [23 / 40] is the double nearest to 0.575, and its product with 100 is
    the double just below 57.5, which is [115 * 2 ^ 46 * 2 ^ (-47)]; in the
    same way [(29 / 200) * 100] is the double just below 14.5. *)
Example product_below_tie :
  js_mul (js_div (Number_of_nat 23) (Number_of_nat 40)) (Number_of_nat 100)
    = S754_finite false 8092405580431359 (-47) ∧
  (8092405580431359 + 1 = 115 * 2 ^ 46)%Z ∧
  js_mul (js_div (Number_of_nat 29) (Number_of_nat 200)) (Number_of_nat 100)
    = S754_finite false 8162774324609023 (-49) ∧
  (8162774324609023 + 1 = 29 * 2 ^ 48)%Z.
Proof. by vm_compute. Qed.

Lemma percent_of_zero_total learned : percent_of learned 0 = Some 0%Z.
Proof. reflexivity. Qed.

Lemma spec_percent_zero_total learned : spec_percent learned 0 = 0%Z.
Proof. reflexivity. Qed.

End percentage.

(** C7. The percentage [updateProgressUI] publishes is computed in double
    arithmetic as [Math.round((learned / total) * 100)]. It is 0 for no
    items and 30 for 3 of 10, as claimed. For 23 of 40, where
    [100 * learned / total] is exactly 57.5, the quotient is not a double,
    the product comes out below the tie, and 57 is published; rounding the
    exact value the way [Math.round] does gives 58. The same happens for
    29 of 200 (14 for 14.5). For 1 of 8, exactly 12.5, the arithmetic is
    exact and 13 is published: ties do go up when they are reached. The
    last three lines are the readouts of whole pages: none of no items, 3
    of 10 and 23 of 40 items flagged. *)
Theorem percent_of_tie_below :
  percent_of 0 0 = Some 0%Z ∧
  percent_of 3 10 = Some 30%Z ∧ spec_percent 3 10 = 30%Z ∧
  percent_of 1 8 = Some 13%Z ∧ spec_percent 1 8 = 13%Z ∧
  percent_of 23 40 = Some 57%Z ∧ spec_percent 23 40 = 58%Z ∧
  percent_of 29 200 = Some 14%Z ∧ spec_percent 29 200 = 15%Z ∧
  published (recalculateAndUpdateUI (counted_page 0 0)).2
    = Some (Readout 0 0 (Some 0%Z)) ∧
  published (recalculateAndUpdateUI (counted_page 3 10)).2
    = Some (Readout 3 10 (Some 30%Z)) ∧
  published (recalculateAndUpdateUI (counted_page 23 40)).2
    = Some (Readout 23 40 (Some 57%Z)).
Proof. repeat split; by vm_compute. Qed.

(* ===================================================================== *)
(** * Durable Store Adapter *)
(* ===================================================================== *)

(** C5. When the database does not open or the transaction aborts,
    [saveProgressToDB] still returns normally, and the only thing it
    changes is the status text, which then reads that saving failed: the
    Progress Document in memory and the record in the database are as
    they were. A toggle whose save fails keeps the change it made to the
    model (a toggle makes one when [getSet] can read the page's entry). *)
Theorem save_failure_keeps_model (io : idb_run) (st : state) :
  open_ok io = false ∨ tx_ok io = false →
  saveProgressToDB io st = (Return tt, with_status "Помилка збереження." st) ∧
  progress (saveProgressToDB io st).2 = progress st ∧
  idb_progress (saveProgressToDB io st).2 = idb_progress st ∧
  (∀ td c, readable (progress st) (PAGE_ID st) →
     elements_store st !! td = Some c →
     progress (onClick io td st).2 = progress (toggled st td c)).
Proof.
  intros Hfail.
  assert (saveProgressToDB io st
          = (Return tt, with_status "Помилка збереження." st)) as Hrun.
  { unfold saveProgressToDB, idbOpen, idbPut. run.
    destruct (open_ok io), (tx_ok io); simpl; try done; by destruct Hfail. }
  rewrite Hrun. repeat split.
  intros td c Hr Hc. pose proof (onClick_kept io td st c Hr Hc) as Hk.
  unfold kept in Hk. by injection Hk.
Qed.

Lemma save_failure_keeps_model_witness :
  saveProgressToDB (IdbRun true false) example_page
    = (Return tt, with_status "Помилка збереження." example_page) ∧
  progress (saveProgressToDB (IdbRun true false) example_page).2 = Doc ∅ ∧
  idb_progress (saveProgressToDB (IdbRun true false) example_page).2 = None ∧
  pages (progress (onClick (IdbRun true false) 1 example_page).2) !! lit "verbs"
    = Some [lit "haben"].
Proof.
  destruct (save_failure_keeps_model (IdbRun true false) example_page)
    as (Hrun & Hp & Hdb & Hclick); [by right|].
  split; [exact Hrun|]. split; [exact Hp|]. split; [exact Hdb|].
  assert (readable (progress example_page) (PAGE_ID example_page)) as Hr
    by (by right).
  by rewrite (Hclick 1 (example_cell " haben " 1) Hr eq_refl).
Defined.

(** When the database works the record becomes the document in memory. *)
Lemma save_success io st :
  open_ok io = true → tx_ok io = true →
  saveProgressToDB io st =
    (Return tt, with_status "Прогрес збережено." (with_idb (progress st) st)).
Proof.
  intros Ho Ht. unfold saveProgressToDB, idbOpen, idbPut. run.
  by rewrite Ho, Ht.
Qed.

(* ===================================================================== *)
(** * Content Reconciler *)
(* ===================================================================== *)

Section reconciler.

Lemma with_elements_id st : with_elements (elements_store st) st = st.
Proof. by destruct st. Qed.

Lemma insert_alter {A} (f : A → A) (l : list A) i x :
  l !! i = Some x → <[i := f x]> l = alter f i l.
Proof.
  intros H. apply list_eq. intros j. destruct (decide (i = j)) as [<-|].
  - rewrite list_lookup_insert_eq by eauto using lookup_lt_Some.
    by rewrite list_lookup_alter_eq, H.
  - by rewrite list_lookup_insert_ne, list_lookup_alter_ne.
Qed.

Lemma addWordCellListener_null st :
  addWordCellListener None st = (Return tt, st).
Proof. reflexivity. Qed.

Lemma addWordCellListener_bound st td c :
  elements_store st !! td = Some c → listenerBound c = Some (lit "1") →
  addWordCellListener (Some td) st = (Return tt, st).
Proof.
  intros Hc Hb. unfold addWordCellListener.
  rewrite (bind_Return _ _ _ _ _ (element_run _ _ _ Hc)).
  by rewrite decide_True.
Qed.

Lemma addWordCellListener_run st td c :
  elements_store st !! td = Some c →
  addWordCellListener (Some td) st =
    (Return tt, with_elements (alter bind_cell td (elements_store st)) st).
Proof.
  intros Hc. rewrite <-(insert_alter _ _ _ _ Hc). unfold bind_cell.
  case_decide as Hb.
  - rewrite list_insert_id, with_elements_id by done.
    by apply (addWordCellListener_bound st td c).
  - unfold addWordCellListener.
    rewrite (bind_Return _ _ _ _ _ (element_run _ _ _ Hc)).
    rewrite decide_False by done.
    exact (update_element_run td
             (λ c, add_click_listener (set_listenerBound (lit "1") c)) st c Hc).
Qed.

Lemma scan_run tds st :
  (∀ td, td ∈ tds → is_Some (elements_store st !! td)) →
  scan tds st =
    (Return tt,
     with_elements
       (foldl (λ l td, alter bind_cell td l) (elements_store st) tds) st).
Proof.
  unfold scan. revert st.
  induction tds as [|td tds IH]; intros st Hv; simpl.
  - by rewrite with_elements_id.
  - destruct (Hv td) as [c Hc]; [by left|].
    rewrite (bind_Return _ _ _ _ _ (addWordCellListener_run st td c Hc)).
    rewrite IH; [done|]. intros td' Htd'. simpl.
    apply lookup_lt_is_Some. rewrite length_alter.
    apply lookup_lt_is_Some, Hv. by right.
Qed.

(** Applying an idempotent change at a list of positions, in any order
    and any number of times, applies it once at each of them. *)
Lemma foldl_alter_lookup {A} (f : A → A) (l : list A) (tds : list nat) i :
  (∀ x, f (f x) = f x) →
  foldl (λ l td, alter f td l) l tds !! i =
    if decide (i ∈ tds) then f <$> l !! i else l !! i.
Proof.
  intros Hf. revert l. induction tds as [|td tds IH]; intros l; cbn [foldl].
  - case_decide as H; [by apply elem_of_nil in H | done].
  - rewrite IH. destruct (decide (td = i)) as [->|Hne].
    + rewrite list_lookup_alter_eq.
      destruct (decide (i ∈ i :: tds)) as [_|Hn];
        [|exfalso; apply Hn; by left].
      case_decide; [|done]. destruct (l !! i); simpl; by rewrite ?Hf.
    + rewrite list_lookup_alter_ne by done.
      destruct (decide (i ∈ tds)) as [H1|H1],
        (decide (i ∈ td :: tds)) as [H2|H2]; try done.
      * exfalso. apply H2. by right.
      * apply elem_of_cons in H2 as [->|?]; done.
Qed.

Lemma bind_cell_idemp c : bind_cell (bind_cell c) = bind_cell c.
Proof.
  unfold bind_cell.
  destruct (decide (listenerBound c = Some (lit "1"))) as [Hb|Hb].
  - by rewrite decide_True.
  - by rewrite decide_True.
Qed.

Lemma bind_flag_idemp b : bind_flag (bind_flag b) = bind_flag b.
Proof.
  unfold bind_flag.
  destruct (decide (b.1 = Some (lit "1"))) as [Hb|Hb].
  - by rewrite decide_True.
  - by rewrite decide_True.
Qed.

Lemma bind_flag_cell c :
  (listenerBound (bind_cell c), clickListeners (bind_cell c)) =
    bind_flag (listenerBound c, clickListeners c).
Proof. unfold bind_cell, bind_flag. simpl. by case_decide. Qed.

End reconciler.

Section observer.

Lemma for_of_app {A} (l1 l2 : list A) (f : A → M unit) st :
  for_of (l1 ++ l2) f st = (for_of l1 f;; for_of l2 f) st.
Proof.
  revert st. induction l1 as [|x l1 IH]; intros st; simpl; [done|].
  run. destruct (f x st) as [[[]|e] st']; [apply IH | done].
Qed.

Lemma bind_cong {A B} (m m' : M A) (f f' : A → M B) st :
  m st = m' st → (∀ a s, f a s = f' a s) → (m ≫= f) st = (m' ≫= f') st.
Proof.
  intros Hm Hf. run. rewrite Hm. by destruct (m' st) as [[a|e] s].
Qed.

Lemma bind_mret_unit (m : M unit) st : (m;; mret tt) st = m st.
Proof. run. by destruct (m st) as [[[]|e] s]. Qed.

Lemma bind_added_scan n st : bind_added n st = scan (words_of n) st.
Proof.
  destruct n as [|w children]; [done|].
  unfold scan. cbn [words_of bind_added matches_word querySelectorAll_word].
  rewrite for_of_app. apply bind_cong; [|done].
  destruct w as [td|]; [|done].
  symmetry. apply (bind_mret_unit (addWordCellListener (Some td))).
Qed.

Lemma added_nodes_scan nodes st :
  for_of nodes bind_added st = scan (flat_map words_of nodes) st.
Proof.
  revert st. induction nodes as [|n nodes IH]; intros st; simpl; [done|].
  unfold scan. rewrite for_of_app.
  apply bind_cong; [apply bind_added_scan | intros _; apply IH].
Qed.

Lemma mutations_scan mutations st :
  for_of mutations
    (λ m, if is_childList m then for_of (addedNodes m) bind_added
          else mret tt) st
  = scan (added_words mutations) st.
Proof.
  revert st. induction mutations as [|m ms IH]; intros st; simpl; [done|].
  unfold scan. rewrite for_of_app. apply bind_cong; [|intros _; apply IH].
  destruct (is_childList m); [apply added_nodes_scan | done].
Qed.


Lemma kept_binding st st' td :
  kept st = kept st' → binding st td = binding st' td.
Proof.
  intros Hk.
  assert (∀ s, binding s td
               = (λ k, (k.1.2, k.2)) <$> (core <$> elements_store s) !! td)
    as Hb.
  { intros s. unfold binding. rewrite list_lookup_fmap.
    by destruct (elements_store s !! td). }
  rewrite !Hb. unfold kept in Hk. by injection Hk as _ _ _ -> _.
Qed.

Lemma binding_is_Some st td :
  is_Some (binding st td) ↔ is_Some (elements_store st !! td).
Proof. unfold binding. by rewrite fmap_is_Some. Qed.

Lemma scan_binding tds st td :
  (∀ td, td ∈ tds → is_Some (elements_store st !! td)) →
  binding (scan tds st).2 td =
    if decide (td ∈ tds) then bind_flag <$> binding st td else binding st td.
Proof.
  intros Hv. rewrite scan_run by done. unfold binding. simpl.
  rewrite foldl_alter_lookup by apply bind_cell_idemp.
  case_decide; [|done].
  destruct (elements_store st !! td) as [c|]; simpl; [|done].
  by rewrite bind_flag_cell.
Qed.

Lemma observer_callback_binding mutations st td :
  (∀ td, td ∈ added_words mutations → is_Some (elements_store st !! td)) →
  binding (observer_callback mutations st).2 td =
    if decide (td ∈ added_words mutations)
    then bind_flag <$> binding st td else binding st td.
Proof.
  intros Hv. rewrite <-(scan_binding _ st td Hv).
  unfold observer_callback.
  pose proof (scan_run _ st Hv) as Hscan.
  erewrite bind_Return; [|by rewrite mutations_scan]. rewrite Hscan. simpl.
  apply kept_binding.
  destruct (existsb is_childList mutations);
    [apply frames_recalculateAndUpdateUI | done].
Qed.

Lemma after_callbacks_binding mutations n st :
  (∀ td, td ∈ added_words mutations → is_Some (elements_store st !! td)) →
  ∀ td, binding (after_callbacks (S n) mutations st) td =
          if decide (td ∈ added_words mutations)
          then bind_flag <$> binding st td else binding st td.
Proof.
  intros Hv. induction n as [|n IH]; intros td.
  - by apply observer_callback_binding.
  - unfold after_callbacks in *. rewrite Nat.iter_succ.
    rewrite observer_callback_binding.
    + rewrite IH. case_decide; [|done].
      destruct (binding st td); simpl; by rewrite ?bind_flag_idemp.
    + intros td' Htd'. apply binding_is_Some. rewrite IH.
      rewrite decide_True by done. apply fmap_is_Some, binding_is_Some.
      by apply Hv.
Qed.

Lemma unbound_is_Some st td :
  unbound st td → is_Some (elements_store st !! td).
Proof. intros (flag & Hb & _). apply binding_is_Some. by rewrite Hb. Qed.

Lemma unbound_bind_flag st td :
  unbound st td → bind_flag <$> binding st td = Some (Some (lit "1"), 1).
Proof.
  intros (flag & -> & Hflag). simpl. unfold bind_flag.
  by rewrite decide_False.
Qed.

End observer.

(** C6. Binding an unbound item returns normally, attaches one click
    handler and sets the Binding Flag, and changes the binding of no other
    item; binding an item whose flag is set changes nothing at all. So
    when the observer reports a batch of inserted nodes whose word cells
    are all unbound, then after its callback has run on the batch once or
    any number of times more, every one of these cells has exactly one
    handler and its flag set, and the binding of every other cell is what
    it was. *)
Theorem binding_happens_once :
  (∀ st td, unbound st td →
     ∃ st', addWordCellListener (Some td) st = (Return tt, st') ∧
            binding st' td = Some (Some (lit "1"), 1) ∧
            ∀ td', td' ≠ td → binding st' td' = binding st td') ∧
  (∀ st td n, binding st td = Some (Some (lit "1"), n) →
     addWordCellListener (Some td) st = (Return tt, st)) ∧
  (∀ mutations n st,
     (∀ td, td ∈ added_words mutations → unbound st td) →
     (∀ td, td ∈ added_words mutations →
        binding (after_callbacks (S n) mutations st) td
          = Some (Some (lit "1"), 1)) ∧
     (∀ td, td ∉ added_words mutations →
        binding (after_callbacks (S n) mutations st) td = binding st td)).
Proof.
  split; [|split].
  - intros st td Hu. pose proof (unbound_is_Some st td Hu) as [c Hc].
    assert (∀ td', td' ∈ [td] → is_Some (elements_store st !! td')) as Hv.
    { intros ? ->%list_elem_of_singleton. eauto. }
    pose proof (scan_binding [td] st) as Hscan.
    rewrite scan_run in Hscan by done. simpl in Hscan.
    eexists. split; [by apply (addWordCellListener_run st td c)|]. split.
    + rewrite Hscan by done.
      rewrite decide_True by (by left). by apply unbound_bind_flag.
    + intros td' Hne. rewrite Hscan by done.
      rewrite decide_False; [done|]. by intros ->%list_elem_of_singleton.
  - intros st td n Hb. unfold binding in Hb.
    destruct (elements_store st !! td) as [c|] eqn:Hc; [|done].
    injection Hb as Hflag _. by apply (addWordCellListener_bound st td c).
  - intros mutations n st Hu.
    assert (∀ td, td ∈ added_words mutations →
                  is_Some (elements_store st !! td)) as Hv.
    { intros td Htd. by apply unbound_is_Some, Hu. }
    split; intros td Htd; rewrite after_callbacks_binding by done.
    + rewrite decide_True by done. by apply unbound_bind_flag, Hu.
    + by rewrite decide_False.
Qed.

Lemma binding_happens_once_witness :
  added_words insertion = [0; 1; 2; 3; 4] ∧
  (∀ td, td ∈ added_words insertion → unbound fresh_rows td) ∧
  (∀ td, td ∈ added_words insertion →
     binding (after_callbacks 3 insertion fresh_rows) td
       = Some (Some (lit "1"), 1)) ∧
  sum_list (clickListeners <$> elements_store (after_callbacks 3 insertion fresh_rows))
    = 5.
Proof.
  assert (∀ td, td ∈ added_words insertion → unbound fresh_rows td) as Hu.
  { intros td Htd. change (added_words insertion) with [0; 1; 2; 3; 4] in Htd.
    repeat (apply elem_of_cons in Htd as [->|Htd];
            [by exists None|]).
    by apply elem_of_nil in Htd. }
  destruct binding_happens_once as (_ & _ & Hobs).
  destruct (Hobs insertion 2 fresh_rows Hu) as [Hbound _].
  split; [reflexivity|]. split; [exact Hu|]. split; [exact Hbound|].
  by vm_compute.
Defined.

(* ===================================================================== *)
(** * External File Binding *)
(* ===================================================================== *)

Global Instance platform_call_eq_dec : EqDecision platform_call.
Proof. solve_decision. Defined.

(** Goes through the members of a list of calls that is written out. *)
Ltac in_calls H :=
  repeat (apply elem_of_cons in H as [H|H]; [try discriminate H|]);
  try (by apply elem_of_nil in H); try done.

(** C10. Without a handle [ensurePermission] answers [denied] and makes
    no call on the platform. With a handle it queries once, first; it
    requests permission at most once, and it does so exactly when the
    query answered [prompt]. It resolves to [granted] or [denied] as
    queried, and to the answer of the request after [prompt]. *)
Theorem ensurePermission_calls :
  ensurePermission None = (Return denied, []) ∧
  ∀ h : file_handle,
    let calls := (ensurePermission (Some h)).2 in
    (∃ rest, calls = QueryPermission :: rest ∧ QueryPermission ∉ rest) ∧
    length (filter (λ call, call = RequestPermission) calls) ≤ 1 ∧
    (RequestPermission ∈ calls ↔ queryPermission h = inr prompt) ∧
    (queryPermission h = inr granted →
       (ensurePermission (Some h)).1 = Return granted) ∧
    (queryPermission h = inr denied →
       (ensurePermission (Some h)).1 = Return denied) ∧
    (∀ state, queryPermission h = inr prompt →
       requestPermission h = inr state →
       (ensurePermission (Some h)).1 = Return state).
Proof.
  split; [done|]. intros [query request]. simpl.
  destruct query as [e|[| |]]; [| | |destruct request as [e|state]]; simpl.
  all: split;
    [eexists; split; [reflexivity|]; intros H; in_calls H|].
  all: split; [vm_compute; lia|].
  all: split; [split; intros H; [in_calls H | try discriminate H]|].
  all: try (rewrite !elem_of_cons; auto).
  all: repeat split; intros; congruence.
Qed.

(* ===================================================================== *)
(** * Loading *)
(* ===================================================================== *)

Section loading.

Lemma as_document_empty_progress : as_document empty_progress = Some (Doc ∅).
Proof. reflexivity. Qed.

Lemma loadFromFile_progress_object props :
  loadFromFile_progress (inr (JObj props)) =
    if truthy (default JUndefined (own_property props (lit "pages")))
    then JObj props else JObj [(lit "pages", JObj props)].
Proof. reflexivity. Qed.

Lemma loadFromFile_progress_array elems :
  loadFromFile_progress (inr (JArr elems)) = JObj [(lit "pages", JArr elems)].
Proof. reflexivity. Qed.

(** The file path does wrap a bare mapping. *)
Lemma loadFromFile_wraps_bare props :
  own_property props (lit "pages") = None →
  loadFromFile_progress (inr (JObj props)) = JObj [(lit "pages", JObj props)].
Proof. intros H. rewrite loadFromFile_progress_object. by rewrite H. Qed.

Lemma loadFromFile_progress_primitive v :
  typeof_object v = false → loadFromFile_progress (inr v) = empty_progress.
Proof.
  intros H. unfold loadFromFile_progress. by rewrite H, andb_false_r.
Qed.

Lemma loadFromFile_progress_has_pages parse :
  ∃ p, get_property (loadFromFile_progress parse) (lit "pages") = inr p ∧
       truthy p = true.
Proof.
  assert (∃ p, get_property empty_progress (lit "pages") = inr p ∧
               truthy p = true) as Hempty.
  { by exists (JObj []). }
  destruct parse as [e|v]; [done|].
  destruct v as [| | | | |elems|props];
    try (by rewrite loadFromFile_progress_primitive).
  - done.
  - by exists (JArr elems).
  - rewrite loadFromFile_progress_object.
    destruct (truthy (default JUndefined (own_property props (lit "pages"))))
      eqn:Ht.
    + by eexists.
    + by exists (JObj props).
Qed.

End loading.

Section wrapper.

Lemma wrapped_empty_progress : wrapped empty_progress.
Proof. by exists (JObj []). Qed.

Lemma wrapped_loadFromFile parse : wrapped (loadFromFile_progress parse).
Proof. apply loadFromFile_progress_has_pages. Qed.

Lemma wrapped_value_of d : wrapped (value_of d).
Proof.
  unfold wrapped, value_of. cbn [get_property own_property].
  rewrite decide_True by done. by eexists.
Qed.

Lemma boot_progress_cases before stored :
  boot_progress before (Got stored) = if truthy stored then stored else before.
Proof. reflexivity. Qed.

Lemma wrapped_boot_progress before r :
  wrapped before →
  (∀ stored, r = Got stored → truthy stored = true → wrapped stored) →
  wrapped (boot_progress before r).
Proof.
  intros Hb Hs. destruct r as [| |stored]; try done. simpl.
  destruct (truthy stored) eqn:Ht; [by apply Hs | done].
Qed.

Lemma bare_mapping_not_wrapped : ¬ wrapped bare_mapping.
Proof. by intros (p & [= <-] & Ht). Qed.

End wrapper.

(** C3, as the claim states it, fails: [boot] normalizes nothing. A bare
    mapping read from a file is wrapped into [pages] and is then a
    Progress Document; the same value as the record of the database is
    installed by [boot] as it stands: it has no [pages], it is no
    Progress Document, and [getSet], with which [applyMarks] begins, throws
    on it. *)
Lemma boot_installs_bare_mapping :
  loadFromFile_progress (inr bare_mapping) = JObj [(lit "pages", bare_mapping)] ∧
  as_document (loadFromFile_progress (inr bare_mapping))
    = Some (Doc (<[lit "verbs" := [lit "haben"]]> ∅)) ∧
  boot_progress empty_progress (Got bare_mapping) = bare_mapping ∧
  get_property (boot_progress empty_progress (Got bare_mapping)) (lit "pages")
    = inr JUndefined ∧
  as_document (boot_progress empty_progress (Got bare_mapping)) = None ∧
  getSet_elements (boot_progress empty_progress (Got bare_mapping)) (lit "verbs")
    = inl TypeError.
Proof. repeat split; by vm_compute. Qed.

(** C3, amended. [loadFromFile] wraps an object whose [pages] is missing
    or falsy into [pages], so that the legacy arrays are then read as the
    pages' entries; [boot] installs a truthy record as it is and keeps the
    document it has for any other. What the manager has as its document
    has the wrapper all the same, as long as the records are its own: the
    constructor's empty document has it, whatever [loadFromFile] installs
    has it, a Progress Document has it, [boot] keeps it when the record
    has it, and the record [saveProgressToDB] writes is the document in
    memory. *)
Theorem loadFromFile_wraps_boot_installs :
  (∀ props,
     truthy (default JUndefined (own_property props (lit "pages"))) = false →
     loadFromFile_progress (inr (JObj props)) = JObj [(lit "pages", JObj props)] ∧
     get_property (loadFromFile_progress (inr (JObj props))) (lit "pages")
       = inr (JObj props)) ∧
  (∀ before stored,
     boot_progress before (Got stored) =
       if truthy stored then stored else before) ∧
  wrapped empty_progress ∧
  (∀ parse, wrapped (loadFromFile_progress parse)) ∧
  (∀ d, wrapped (value_of d)) ∧
  (∀ before r, wrapped before →
     (∀ stored, r = Got stored → truthy stored = true → wrapped stored) →
     wrapped (boot_progress before r)) ∧
  (∀ io st,
     idb_progress (saveProgressToDB io st).2 =
       if open_ok io && tx_ok io then Some (progress st) else idb_progress st).
Proof.
  split.
  { intros props Hp. rewrite loadFromFile_progress_object, Hp.
    split; [done|]. cbn [get_property own_property].
    by rewrite decide_True. }
  split; [apply boot_progress_cases|].
  split; [apply wrapped_empty_progress|].
  split; [apply wrapped_loadFromFile|].
  split; [apply wrapped_value_of|].
  split; [apply wrapped_boot_progress|].
  intros io st. unfold saveProgressToDB, idbOpen, idbPut. run.
  by destruct (open_ok io), (tx_ok io).
Qed.

Lemma loadFromFile_wraps_boot_installs_witness :
  loadFromFile_progress (inr bare_mapping) = JObj [(lit "pages", bare_mapping)] ∧
  wrapped (loadFromFile_progress (inr bare_mapping)) ∧
  wrapped (boot_progress empty_progress (Got (value_of two_verbs))) ∧
  ¬ wrapped bare_mapping.
Proof.
  destruct loadFromFile_wraps_boot_installs
    as (Hwrap & _ & Hempty & Hload & Hdoc & Hboot & _).
  split; [by apply Hwrap|]. split; [apply Hload|].
  split; [|apply bare_mapping_not_wrapped].
  apply Hboot; [exact Hempty|]. intros stored [= <-] _. apply Hdoc.
Defined.

(** C4, as the claim states it, fails: a file that parses to an object is
    installed without a look at what is in it. [malformed_file] is
    installed as it is; it is not the empty document and not a Progress
    Document, and [getSet], with which the [applyMarks] that follows
    begins, throws on it. *)
Lemma loadFromFile_installs_malformed :
  loadFromFile_progress (inr malformed_file) = malformed_file ∧
  malformed_file ≠ empty_progress ∧
  as_document malformed_file = None ∧
  getSet_elements malformed_file (lit "verbs") = inl TypeError.
Proof. repeat split; by vm_compute. Qed.

(** C4, amended. [loadFromFile] installs the empty document when the
    content does not parse and when it parses to anything but an object or
    an array. An object is installed as it is when its [pages] is truthy
    and wrapped into [pages] otherwise; an array is wrapped. So the value
    installed always is an object with a truthy [pages]; nothing more of
    its shape is checked, and a value that has the shape of a Progress
    Document is installed unchanged. *)
Theorem loadFromFile_installs :
  (∀ e, loadFromFile_progress (inl e) = empty_progress) ∧
  (∀ v, (∀ props, v ≠ JObj props) → (∀ elems, v ≠ JArr elems) →
     loadFromFile_progress (inr v) = empty_progress) ∧
  (∀ props,
     loadFromFile_progress (inr (JObj props)) =
       if truthy (default JUndefined (own_property props (lit "pages")))
       then JObj props else JObj [(lit "pages", JObj props)]) ∧
  (∀ elems,
     loadFromFile_progress (inr (JArr elems)) = JObj [(lit "pages", JArr elems)]) ∧
  (∀ parse, ∃ p,
     get_property (loadFromFile_progress parse) (lit "pages") = inr p ∧
     truthy p = true) ∧
  (∀ v d, as_document v = Some d → loadFromFile_progress (inr v) = v) ∧
  as_document empty_progress = Some (Doc ∅).
Proof.
  split; [done|]. split.
  { intros v Hobj Harr.
    destruct v; try (by apply loadFromFile_progress_primitive).
    - done.
    - by destruct (Harr elems).
    - by destruct (Hobj props). }
  split; [apply loadFromFile_progress_object|].
  split; [apply loadFromFile_progress_array|].
  split; [apply loadFromFile_progress_has_pages|].
  split; [apply loadFromFile_progress_document | reflexivity].
Qed.

Lemma loadFromFile_installs_witness :
  loadFromFile_progress (inr (JStr (lit "verbs"))) = empty_progress ∧
  loadFromFile_progress (inr unsorted_file) = unsorted_file.
Proof.
  destruct loadFromFile_installs as (_ & Hprim & _ & _ & _ & Hdoc & _).
  split.
  - by apply Hprim.
  - apply (Hdoc unsorted_file unsorted_document). by vm_compute.
Defined.

(* ===================================================================== *)
(** * Loops over the cached cells *)
(* ===================================================================== *)

Section loops.

Lemma for_of_alter_run_from (body : ref → M unit) (g : cell → cell) st tds :
  (∀ td l c, l !! td = Some c →
     body td (with_elements l st)
       = (Return tt, with_elements (alter g td l) st)) →
  ∀ l, (∀ td, td ∈ tds → is_Some (l !! td)) →
  for_of tds body (with_elements l st) =
    (Return tt, with_elements (foldl (λ l td, alter g td l) l tds) st).
Proof.
  intros Hbody. induction tds as [|td tds IH]; intros l Hv; [done|].
  destruct (Hv td) as [c Hc]; [by left|].
  cbn [for_of foldl].
  rewrite (bind_Return _ _ _ _ _ (Hbody td l c Hc)).
  apply IH. intros td' Htd'. apply lookup_lt_is_Some. rewrite length_alter.
  apply lookup_lt_is_Some, Hv. by right.
Qed.

Lemma for_of_alter_run (body : ref → M unit) (g : cell → cell) st tds :
  (∀ td l c, l !! td = Some c →
     body td (with_elements l st)
       = (Return tt, with_elements (alter g td l) st)) →
  (∀ td, td ∈ tds → is_Some (elements_store st !! td)) →
  for_of tds body st =
    (Return tt,
     with_elements (foldl (λ l td, alter g td l) (elements_store st) tds) st).
Proof.
  intros Hbody Hv.
  rewrite <-(with_elements_id st) at 1. by apply for_of_alter_run_from.
Qed.

Lemma foldl_alter_length {A} (f : A → A) (l : list A) (tds : list nat) :
  length (foldl (λ l td, alter f td l) l tds) = length l.
Proof.
  revert l. induction tds as [|td tds IH]; intros l; [done|].
  cbn [foldl]. by rewrite IH, length_alter.
Qed.

Lemma foldl_alter_is_Some {A} (f : A → A) (l : list A) (tds : list nat) i :
  is_Some (foldl (λ l td, alter f td l) l tds !! i) ↔ is_Some (l !! i).
Proof. by rewrite !lookup_lt_is_Some, foldl_alter_length. Qed.

Lemma paint_idemp set c : paint set (paint set c) = paint set c.
Proof. reflexivity. Qed.

Lemma with_hidden_rows_id st : with_hidden_rows (hidden_rows st) st = st.
Proof. by destruct st. Qed.

Lemma row_of_Some st td r :
  row_of st td = Some r ↔
  ∃ c, elements_store st !! td = Some c ∧ closest_tr c = Some r.
Proof.
  unfold row_of. destruct (elements_store st !! td) as [c|]; simpl.
  - split; [eauto | by intros (? & [= <-] & ?)].
  - split; [done | by intros (? & ? & ?)].
Qed.

Lemma cache_in_rows_wf st : cache_in_rows st → cache_wf st.
Proof.
  intros H td Htd. destruct (H td Htd) as [r Hr].
  apply row_of_Some in Hr as (c & Hc & _). by eexists.
Qed.

(** One round of the loop of [applyHide] on a cell inside a row. *)
Lemma hide_round st rows td :
  is_Some (row_of st td) →
  (c ← element td;
   match closest_tr c with
   | None => throw TypeError
   | Some tr =>
       hide ← get hideLearned;
       modify (set_display tr (hide && learned c))
   end) (with_hidden_rows rows st)
  = (Return tt, with_hidden_rows (hide_step st rows td) st).
Proof.
  intros [r (c & Hc & Hr)%row_of_Some].
  erewrite bind_Return; [|by apply element_run].
  rewrite Hr. erewrite bind_Return; [|reflexivity].
  unfold hide_step. rewrite Hc, Hr. simpl.
  by destruct (hideLearned st && learned c).
Qed.

(** One round on a cell outside any row. *)
Lemma hide_round_rowless st rows td c :
  elements_store st !! td = Some c → closest_tr c = None →
  (c ← element td;
   match closest_tr c with
   | None => throw TypeError
   | Some tr =>
       hide ← get hideLearned;
       modify (set_display tr (hide && learned c))
   end) (with_hidden_rows rows st)
  = (Throw TypeError, with_hidden_rows rows st).
Proof.
  intros Hc Hr. erewrite bind_Return; [|by apply element_run].
  by rewrite Hr.
Qed.

Lemma hide_loop_run st tds :
  (∀ td, td ∈ tds → is_Some (row_of st td)) →
  ∀ rows,
    for_of tds (λ td,
      c ← element td;
      match closest_tr c with
      | None => throw TypeError
      | Some tr =>
          hide ← get hideLearned;
          modify (set_display tr (hide && learned c))
      end) (with_hidden_rows rows st)
    = (Return tt, with_hidden_rows (foldl (hide_step st) rows tds) st).
Proof.
  induction tds as [|td tds IH]; intros Hv rows; [done|].
  cbn [for_of foldl].
  erewrite bind_Return; [|apply hide_round, Hv; by left].
  apply IH. intros td' Htd'. apply Hv. by right.
Qed.

(** When some cell of the list stands outside a row the loop throws, with
    the rows of the cells before it written. *)
Lemma hide_loop_throws st tds :
  (∀ td, td ∈ tds → is_Some (elements_store st !! td)) →
  (∃ td, td ∈ tds ∧ row_of st td = None) →
  ∀ rows, ∃ rows',
    for_of tds (λ td,
      c ← element td;
      match closest_tr c with
      | None => throw TypeError
      | Some tr =>
          hide ← get hideLearned;
          modify (set_display tr (hide && learned c))
      end) (with_hidden_rows rows st)
    = (Throw TypeError, with_hidden_rows rows' st).
Proof.
  induction tds as [|td tds IH]; intros Hv (bad & Hbad & Hnone) rows.
  { by apply elem_of_nil in Hbad. }
  cbn [for_of]. destruct (Hv td) as [c Hc]; [by left|].
  destruct (closest_tr c) as [r|] eqn:Hr.
  - erewrite bind_Return; last first.
    { apply hide_round. exists r. apply row_of_Some. eauto. }
    apply IH; [intros td' Htd'; apply Hv; by right|].
    exists bad. split; [|done].
    apply elem_of_cons in Hbad as [->|Hbad]; [|done].
    unfold row_of in Hnone. rewrite Hc in Hnone. simpl in Hnone. congruence.
  - exists rows. erewrite bind_Throw; [done|].
    by apply (hide_round_rowless st rows td c).
Qed.

Lemma applyHide_run st :
  cache_in_rows st → applyHide st = (Return tt, rows_hidden st).
Proof.
  intros Hv. unfold applyHide.
  erewrite bind_Return; [|reflexivity].
  erewrite bind_Return; last first.
  { pose proof (hide_loop_run st (wordCells st) Hv (hidden_rows st)) as Hloop.
    rewrite with_hidden_rows_id in Hloop. exact Hloop. }
  reflexivity.
Qed.

Lemma applyHide_throws st :
  cache_wf st → (∃ td, td ∈ wordCells st ∧ row_of st td = None) →
  ∃ rows', applyHide st = (Throw TypeError, with_hidden_rows rows' st).
Proof.
  intros Hv Hbad. unfold applyHide.
  erewrite bind_Return; [|reflexivity].
  destruct (hide_loop_throws st (wordCells st) Hv Hbad (hidden_rows st))
    as [rows' Hrun].
  rewrite with_hidden_rows_id in Hrun.
  exists rows'. by erewrite bind_Throw.
Qed.

(** The last cell of a row decides how the loop leaves the row. *)
Lemma foldl_hide_step st tds rows r :
  r ∈ foldl (hide_step st) rows tds ↔
    match last (filter (λ td, row_of st td = Some r) tds) with
    | Some td => hideLearned st && carries_learned st td = true
    | None => r ∈ rows
    end.
Proof.
  induction tds as [|td tds IH] using rev_ind; [done|].
  rewrite foldl_snoc, filter_app, filter_cons, filter_nil.
  destruct (row_of st td) as [r'|] eqn:Hrow.
  - pose proof Hrow as (c & Hc & Hr)%row_of_Some.
    unfold hide_step at 1. rewrite Hc, Hr.
    destruct (decide (r' = r)) as [->|Hne].
    + rewrite decide_True by done. rewrite last_snoc.
      unfold carries_learned. rewrite Hc.
      destruct (hideLearned st && learned c);
        rewrite ?elem_of_union, ?elem_of_difference, elem_of_singleton;
        split; try done; auto. by intros [_ []].
    + rewrite decide_False by congruence. rewrite app_nil_r, <-IH.
      destruct (hideLearned st && learned c).
      * rewrite elem_of_union, elem_of_singleton.
        split; [intros [?|?]; [done | congruence] | auto].
      * rewrite elem_of_difference, elem_of_singleton.
        split; [by intros [? _] | intros ?; split; [done | congruence]].
  - rewrite decide_False by done. rewrite app_nil_r, <-IH.
    unfold hide_step at 1. unfold row_of in Hrow.
    destruct (elements_store st !! td) as [c|]; [|done].
    simpl in Hrow. by rewrite Hrow.
Qed.

Lemma rows_hidden_rows st r :
  r ∈ hidden_rows (rows_hidden st) ↔
    match deciding_cell st r with
    | Some td => hideLearned st && carries_learned st td = true
    | None => r ∈ hidden_rows st
    end.
Proof. apply foldl_hide_step. Qed.

End loops.

(* ===================================================================== *)
(** * Views the methods preserve *)
(* ===================================================================== *)

Section preserves.

Context {B : Type} (view : state → B).

Lemma preserves_ret {A} (a : A) : preserves view (mret a).
Proof. by intros st. Qed.

Lemma preserves_throw {A} e : preserves view (@throw A e).
Proof. by intros st. Qed.

Lemma preserves_get {A} (f : state → A) : preserves view (get f).
Proof. by intros st. Qed.

Lemma preserves_modify f :
  (∀ st, view (f st) = view st) → preserves view (modify f).
Proof. intros Hf st. apply Hf. Qed.

Lemma preserves_bind {A C} (m : M A) (f : A → M C) :
  preserves view m → (∀ a, preserves view (f a)) → preserves view (m ≫= f).
Proof.
  intros Hm Hf st. specialize (Hm st). run.
  destruct (m st) as [[a|e] st']; simpl in *; [|done].
  by rewrite Hf.
Qed.

Lemma preserves_try_catch {A} (m h : M A) :
  preserves view m → preserves view h → preserves view (try_catch m h).
Proof.
  intros Hm Hh st. specialize (Hm st). run.
  destruct (m st) as [[a|e] st']; simpl in *; [done|].
  by rewrite Hh.
Qed.

Lemma preserves_for_of {A} (xs : list A) body :
  (∀ x, preserves view (body x)) → preserves view (for_of xs body).
Proof.
  intros Hb. induction xs as [|x xs IH]; simpl.
  - apply preserves_ret.
  - apply preserves_bind; auto.
Qed.

Lemma preserves_element td : preserves view (element td).
Proof. intros st. unfold element. by destruct (_ !! _). Qed.

Lemma preserves_update_element td f :
  (∀ l st, view (with_elements l st) = view st) →
  preserves view (update_element td f).
Proof.
  intros Hv st. unfold update_element, element. run.
  destruct (elements_store st !! td) as [c|]; simpl; [apply Hv | done].
Qed.

Lemma preserves_count_learned tds n : preserves view (count_learned tds n).
Proof.
  revert n. induction tds as [|td tds IH]; intros n; simpl.
  - apply preserves_ret.
  - apply preserves_bind; [apply preserves_element | auto].
Qed.

Lemma preserves_getSet : preserves view getSet.
Proof. intros st. unfold getSet. run. by repeat case_match. Qed.

End preserves.

(** Goes through a method, statement by statement. *)
Ltac preserve :=
  repeat first
    [ apply preserves_ret | apply preserves_get | apply preserves_throw
    | apply preserves_element | apply preserves_count_learned
    | apply preserves_getSet
    | by apply preserves_update_element
    | by apply preserves_modify
    | apply preserves_for_of; intros ?
    | apply preserves_try_catch
    | apply preserves_bind; [|intros ?]
    | case_match ].

Section preserved_views.

Lemma recalculateAndUpdateUI_beside_counters :
  preserves beside_counters recalculateAndUpdateUI.
Proof. unfold recalculateAndUpdateUI, computeTotals, updateProgressUI. preserve. Qed.

Lemma applyHide_model_and_store : preserves model_and_store applyHide.
Proof. unfold applyHide, updateHideButton. preserve. Qed.

Lemma applyHide_elements : preserves elements_store applyHide.
Proof. unfold applyHide, updateHideButton. preserve. Qed.

Lemma applyHide_wordCells : preserves wordCells applyHide.
Proof. unfold applyHide, updateHideButton. preserve. Qed.

Lemma recalculateAndUpdateUI_model_and_store :
  preserves model_and_store recalculateAndUpdateUI.
Proof. unfold recalculateAndUpdateUI, computeTotals, updateProgressUI. preserve. Qed.

Lemma applyMarks_model_and_store : preserves model_and_store applyMarks.
Proof.
  unfold applyMarks.
  apply preserves_bind; [preserve | intros set].
  apply preserves_bind; [preserve | intros cells].
  apply preserves_bind; [preserve | intros _].
  apply preserves_bind; [apply applyHide_model_and_store | intros _].
  apply recalculateAndUpdateUI_model_and_store.
Qed.

Lemma addWordCellListener_model_and_store td :
  preserves model_and_store (addWordCellListener td).
Proof. unfold addWordCellListener. preserve. Qed.

Lemma scan_model_and_store tds : preserves model_and_store (scan tds).
Proof.
  apply preserves_for_of. intros td. apply addWordCellListener_model_and_store.
Qed.

Lemma addWordCellListener_hiding td :
  preserves hiding (addWordCellListener td).
Proof. unfold addWordCellListener. preserve. Qed.

Lemma recalculateAndUpdateUI_hiding : preserves hiding recalculateAndUpdateUI.
Proof. unfold recalculateAndUpdateUI, computeTotals, updateProgressUI. preserve. Qed.

End preserved_views.

(* ===================================================================== *)
(** * Painting, hiding and recounting *)
(* ===================================================================== *)

Section painting.

Lemma marks_painted_lookup st td :
  elements_store (marks_painted st) !! td =
    if decide (td ∈ wordCells st)
    then paint (model_set st) <$> elements_store st !! td
    else elements_store st !! td.
Proof.
  unfold marks_painted. simpl. apply foldl_alter_lookup, paint_idemp.
Qed.

Lemma row_of_marks_painted st td :
  row_of (marks_painted st) td = row_of st td.
Proof.
  unfold row_of. rewrite marks_painted_lookup.
  case_decide; [|done]. by destruct (elements_store st !! td).
Qed.

Lemma marks_painted_wf st :
  (cache_in_rows st → cache_in_rows (marks_painted st)) ∧
  (page_wf st → page_wf (marks_painted st)).
Proof.
  split.
  - intros H td Htd. rewrite row_of_marks_painted. by apply H.
  - intros H td Htd. unfold marks_painted. simpl.
    apply foldl_alter_is_Some. by apply H.
Qed.

Lemma deciding_cell_marks_painted st r :
  deciding_cell (marks_painted st) r = deciding_cell st r.
Proof.
  unfold deciding_cell. f_equal.
  change (wordCells (marks_painted st)) with (wordCells st).
  apply list_filter_iff. intros td. by rewrite row_of_marks_painted.
Qed.

(** Recounting returns on a well-formed page whose entry can be read,
    refreshes the cache from the document and leaves everything but the
    counters and the readout. *)
Lemma recalculateAndUpdateUI_returns st :
  readable (progress st) (PAGE_ID st) → page_wf st →
  ∃ st', recalculateAndUpdateUI st = (Return tt, st') ∧
    beside_counters st' = beside_counters st ∧
    wordCells st' = document_words st ∧
    totalWords st' = length (document_words st) ∧
    learnedCount st' = flagged_count st `max` Set_size (model_set st) ∧
    (progressBar st && progressFill st && progressText st = true →
     published st' =
       Some (Readout (learnedCount st' `min` totalWords st') (totalWords st')
               (percent_of (learnedCount st' `min` totalWords st')
                           (totalWords st')))).
Proof.
  intros Hr Hwf. unfold recalculateAndUpdateUI.
  erewrite bind_Return; [|by apply computeTotals_run].
  destruct (progressBar st && progressFill st && progressText st) eqn:Hw.
  - apply andb_true_iff in Hw as [[Hb Hf]%andb_true_iff Ht].
    rewrite updateProgressUI_run by done. eauto 10.
  - rewrite updateProgressUI_without_elements by done.
    eexists. split; [done|]. repeat split; done.
Qed.


End painting.

(** X2. [applyHide] on a page whose cached cells are elements. When each
    of them lies in a table row it returns, stores the hide flag in local
    storage, and leaves every row that holds a cached cell hidden exactly
    when the flag is on and the last cached cell of that row is marked
    learned; rows without a cached cell, all cells, the cache, the model,
    the database and the status are as they were. When some cached cell
    lies in no row it throws a [TypeError] instead, and neither the stored
    flag nor the button is written. *)
Theorem applyHide_hides_learned_rows (st : state) (Hwf : cache_wf st) :
  (cache_in_rows st →
   ∃ st', applyHide st = (Return tt, st') ∧
     localStorage_hideLearned st' = Some (hideLearned st) ∧
     elements_store st' = elements_store st ∧
     model_and_store st' = model_and_store st ∧
     wordCells st' = wordCells st ∧
     ∀ r, r ∈ hidden_rows st' ↔
          match deciding_cell st r with
          | Some td => hideLearned st && carries_learned st td = true
          | None => r ∈ hidden_rows st
          end) ∧
  ((∃ td, td ∈ wordCells st ∧ row_of st td = None) →
   ∃ st', applyHide st = (Throw TypeError, st') ∧
     localStorage_hideLearned st' = localStorage_hideLearned st ∧
     btnHide st' = btnHide st ∧
     elements_store st' = elements_store st ∧
     model_and_store st' = model_and_store st).
Proof.
  split.
  - intros Hrows. exists (rows_hidden st).
    split; [by apply applyHide_run|]. split; [done|]. split; [done|].
    split; [done|]. split; [done|]. apply rows_hidden_rows.
  - intros Hbad. destruct (applyHide_throws st Hwf Hbad) as [rows' Hrun].
    eexists. split; [exact Hrun|]. done.
Qed.

Lemma applyHide_hides_learned_rows_witness :
  cache_wf marked_page ∧ cache_in_rows marked_page ∧
  cache_wf shared_row_page ∧ cache_in_rows shared_row_page ∧
  cache_wf rowless_page ∧
  (∃ td, td ∈ wordCells rowless_page ∧ row_of rowless_page td = None) ∧
  (∃ st', applyHide marked_page = (Return tt, st') ∧
     hidden_rows st' = {[0; 1]}) ∧
  (∃ st', applyHide shared_row_page = (Return tt, st') ∧
     hidden_rows st' = {[1]}) ∧
  (∃ st', applyHide rowless_page = (Throw TypeError, st') ∧
     localStorage_hideLearned st' = None).
Proof.
  assert (∀ st, wordCells st = [0; 1; 2] →
                (∀ td, td ∈ [0; 1; 2] → is_Some (row_of st td)) →
                cache_in_rows st) as Hin.
  { intros st Hw H td Htd. rewrite Hw in Htd. by apply H. }
  assert (cache_in_rows marked_page) as Hr1.
  { apply Hin; [done|]. intros td Htd.
    repeat (apply elem_of_cons in Htd as [->|Htd]; [by eexists|]).
    by apply elem_of_nil in Htd. }
  assert (cache_in_rows shared_row_page) as Hr2.
  { apply Hin; [done|]. intros td Htd.
    repeat (apply elem_of_cons in Htd as [->|Htd]; [by eexists|]).
    by apply elem_of_nil in Htd. }
  assert (cache_wf rowless_page) as Hw3.
  { intros td Htd. simpl in Htd.
    repeat (apply elem_of_cons in Htd as [->|Htd]; [by eexists|]).
    by apply elem_of_nil in Htd. }
  assert (∃ td, td ∈ wordCells rowless_page ∧ row_of rowless_page td = None)
    as Hbad.
  { exists 1. split; [|done]. simpl. rewrite !elem_of_cons. auto. }
  pose proof (cache_in_rows_wf _ Hr1) as Hw1.
  pose proof (cache_in_rows_wf _ Hr2) as Hw2.
  split; [exact Hw1|]. split; [exact Hr1|].
  split; [exact Hw2|]. split; [exact Hr2|].
  split; [exact Hw3|]. split; [exact Hbad|].
  destruct (applyHide_hides_learned_rows marked_page Hw1) as [Hok1 _].
  destruct (Hok1 Hr1) as (s1 & Hrun1 & _).
  destruct (applyHide_hides_learned_rows shared_row_page Hw2) as [Hok2 _].
  destruct (Hok2 Hr2) as (s2 & Hrun2 & _).
  destruct (applyHide_hides_learned_rows rowless_page Hw3) as [_ Hthrow].
  destruct (Hthrow Hbad) as (s3 & Hrun3 & Hls & _).
  split; [|split].
  - exists s1. split; [exact Hrun1|].
    assert (s1 = (applyHide marked_page).2) as -> by by rewrite Hrun1.
    clear. by vm_compute.
  - exists s2. split; [exact Hrun2|].
    assert (s2 = (applyHide shared_row_page).2) as -> by by rewrite Hrun2.
    clear. by vm_compute.
  - exists s3. split; [exact Hrun3 | exact Hls].
Defined.

Section painting_marks.

Lemma applyMarks_loop_run st :
  readable (progress st) (PAGE_ID st) → cache_wf st →
  applyMarks st = (applyHide;; recalculateAndUpdateUI) (marks_painted st).
Proof.
  intros Hr Hv. unfold applyMarks.
  erewrite bind_Return; [|by apply getSet_run].
  erewrite bind_Return; [|reflexivity].
  erewrite bind_Return; last first.
  { apply (for_of_alter_run _ (paint (model_set st))); [|done].
    intros td l c Hc.
    erewrite bind_Return; [|by apply element_run].
    rewrite (update_element_run _ _ _ c) by done. simpl.
    by rewrite <-(insert_alter (paint (model_set st)) l td c Hc). }
  reflexivity.
Qed.

Lemma applyMarks_unreadable st :
  ¬ readable (progress st) (PAGE_ID st) →
  applyMarks st = (Throw TypeError, st).
Proof.
  intros Hn. unfold applyMarks. erewrite bind_Throw; [done|].
  by apply getSet_unreadable.
Qed.

Lemma applyMarks_run st :
  readable (progress st) (PAGE_ID st) → cache_in_rows st → page_wf st →
  ∃ st', applyMarks st = (Return tt, st') ∧
    beside_counters st' = beside_counters (rows_hidden (marks_painted st)) ∧
    wordCells st' = document_words st.
Proof.
  intros Hr Hc Hp.
  rewrite applyMarks_loop_run by auto using cache_in_rows_wf.
  pose proof (proj1 (marks_painted_wf st) Hc) as Hc1.
  pose proof (proj2 (marks_painted_wf st) Hp) as Hp1.
  erewrite bind_Return; [|by apply applyHide_run].
  destruct (recalculateAndUpdateUI_returns (rows_hidden (marks_painted st)))
    as (st' & Hrun & Hb & Hw & _); [done | done |].
  exists st'. by rewrite Hrun.
Qed.

Lemma beside_counters_elements st st' :
  beside_counters st = beside_counters st' →
  elements_store st = elements_store st' ∧ hidden_rows st = hidden_rows st'.
Proof. unfold beside_counters. by intros [= _ _ _ -> _ ->]. Qed.

Lemma carries_learned_ext st st' td :
  elements_store st = elements_store st' →
  carries_learned st td = carries_learned st' td.
Proof. unfold carries_learned. by intros ->. Qed.

End painting_marks.

(** X1. [applyMarks] on a page whose cached cells are elements inside
    table rows and whose document cells are elements. Under a page
    identifier that has an entry of its own in the document or names
    nothing a plain object inherits, it returns and leaves every cached
    cell marked learned exactly when its identifier, the trimmed text, is
    in the learned set of the active page; text, binding and row of the
    cell stay, and so does every cell outside the cache. Every row that
    holds a cached cell ends hidden exactly when the hide flag is on and
    the last cached cell of that row is now marked. Nothing of the model
    or the database changes, and the cache ends refreshed from the
    document. Under any other page identifier it throws a [TypeError]
    and changes nothing. *)
Theorem applyMarks_paints_model (st : state)
  (Hrows : cache_in_rows st) (Hpage : page_wf st) :
  (readable (progress st) (PAGE_ID st) →
   ∃ st', applyMarks st = (Return tt, st') ∧
     model_and_store st' = model_and_store st ∧
     wordCells st' = document_words st ∧
     (∀ td c, td ∈ wordCells st → elements_store st !! td = Some c →
        ∃ c', elements_store st' !! td = Some c' ∧
              unpainted c' = unpainted c ∧
              learned c' = Set_has (model_set st) (item_id c)) ∧
     (∀ td, td ∉ wordCells st →
        elements_store st' !! td = elements_store st !! td) ∧
     (∀ r, r ∈ hidden_rows st' ↔
           match deciding_cell st r with
           | Some td => hideLearned st && carries_learned st' td = true
           | None => r ∈ hidden_rows st
           end)) ∧
  (¬ readable (progress st) (PAGE_ID st) →
   applyMarks st = (Throw TypeError, st)).
Proof.
  split; [|apply applyMarks_unreadable].
  intros Hr. destruct (applyMarks_run st Hr Hrows Hpage) as (st' & Hrun & Hb & Hw).
  exists st'. split; [done|].
  split; [by rewrite <-(applyMarks_model_and_store st), Hrun|].
  split; [done|].
  destruct (beside_counters_elements _ _ Hb) as [Hels Hhid].
  change (elements_store (rows_hidden (marks_painted st)))
    with (elements_store (marks_painted st)) in Hels.
  rewrite Hels, Hhid. split; [|split].
  - intros td c Htd Hcell.
    rewrite marks_painted_lookup, decide_True, Hcell by done. by eexists.
  - intros td Htd. by rewrite marks_painted_lookup, decide_False.
  - intros r. rewrite rows_hidden_rows, deciding_cell_marks_painted.
    destruct (deciding_cell st r) as [td|]; [|done].
    change (hideLearned (marks_painted st)) with (hideLearned st).
    by rewrite (carries_learned_ext st' (marks_painted st) td Hels).
Qed.

Lemma applyMarks_paints_model_witness :
  cache_in_rows reloaded_page ∧ page_wf reloaded_page ∧
  readable (progress reloaded_page) (PAGE_ID reloaded_page) ∧
  cache_in_rows constructor_page ∧ page_wf constructor_page ∧
  ¬ readable (progress constructor_page) (PAGE_ID constructor_page) ∧
  (∃ st', applyMarks reloaded_page = (Return tt, st') ∧
     learned <$> elements_store st' = [true; true; false] ∧
     hidden_rows st' = {[0; 1]}) ∧
  applyMarks constructor_page = (Throw TypeError, constructor_page).
Proof.
  assert (∀ st, elements_store st = elements_store reloaded_page →
                ∀ td, td ∈ [0; 1; 2] → is_Some (row_of st td)) as Hin.
  { intros st Hels td Htd. unfold row_of. rewrite Hels.
    repeat (apply elem_of_cons in Htd as [->|Htd]; [by eexists|]).
    by apply elem_of_nil in Htd. }
  assert (∀ st, elements_store st = elements_store reloaded_page →
                ∀ td, td ∈ [0; 1; 2] → is_Some (elements_store st !! td))
    as Hel.
  { intros st Hels td Htd. rewrite Hels.
    repeat (apply elem_of_cons in Htd as [->|Htd]; [by eexists|]).
    by apply elem_of_nil in Htd. }
  assert (cache_in_rows reloaded_page) as Hc1
    by exact (Hin reloaded_page eq_refl).
  assert (page_wf reloaded_page) as Hp1 by exact (Hel reloaded_page eq_refl).
  assert (cache_in_rows constructor_page) as Hc2
    by exact (Hin constructor_page eq_refl).
  assert (page_wf constructor_page) as Hp2
    by exact (Hel constructor_page eq_refl).
  assert (readable (progress reloaded_page) (PAGE_ID reloaded_page)) as Hr1
    by (by right).
  assert (¬ readable (progress constructor_page) (PAGE_ID constructor_page))
    as Hn2.
  { intros [[arr Harr]|Hplain]; [done | by vm_compute in Hplain]. }
  split; [exact Hc1|]. split; [exact Hp1|]. split; [exact Hr1|].
  split; [exact Hc2|]. split; [exact Hp2|]. split; [exact Hn2|].
  destruct (applyMarks_paints_model reloaded_page Hc1 Hp1) as [Hok _].
  destruct (Hok Hr1) as (st' & Hrun & _).
  destruct (applyMarks_paints_model constructor_page Hc2 Hp2) as [_ Hthrow].
  split; [|exact (Hthrow Hn2)].
  exists st'. split; [exact Hrun|].
  assert (st' = (applyMarks reloaded_page).2) as -> by by rewrite Hrun.
  clear. by vm_compute.
Defined.

Section hide_button.

Lemma state_eq (a b : state) :
  PAGE_ID a = PAGE_ID b → progress a = progress b →
  hideLearned a = hideLearned b → totalWords a = totalWords b →
  learnedCount a = learnedCount b → wordCells a = wordCells b →
  progressBar a = progressBar b → progressFill a = progressFill b →
  progressText a = progressText b → elements_store a = elements_store b →
  document_words a = document_words b → hidden_rows a = hidden_rows b →
  statusEl a = statusEl b →
  btnHide a = btnHide b → published a = published b →
  localStorage_hideLearned a = localStorage_hideLearned b →
  idb_progress a = idb_progress b → a = b.
Proof. destruct a, b. simpl. by intros; subst. Qed.

Lemma onHideClick_run st :
  cache_in_rows st →
  onHideClick st =
    (Return tt, rows_hidden (with_hideLearned (negb (hideLearned st)) st)).
Proof.
  intros Hv. unfold onHideClick.
  erewrite bind_Return; [|reflexivity]. by apply applyHide_run.
Qed.

(** How a pass of [applyHide] leaves the rows depends on the rows before
    it only where no cached cell lies. *)
Lemma rows_hidden_twice st h :
  hidden_rows
    (rows_hidden (with_hideLearned (hideLearned st) (rows_hidden
       (with_hideLearned h st))))
  = hidden_rows (rows_hidden st).
Proof.
  apply set_eq. intros r. rewrite !rows_hidden_rows.
  change (deciding_cell (with_hideLearned (hideLearned st) (rows_hidden
            (with_hideLearned h st))) r) with (deciding_cell st r).
  destruct (deciding_cell st r) as [td|] eqn:Hd; [done|].
  change (hidden_rows (with_hideLearned (hideLearned st) (rows_hidden
            (with_hideLearned h st))))
    with (hidden_rows (rows_hidden (with_hideLearned h st))).
  rewrite rows_hidden_rows.
  change (deciding_cell (with_hideLearned h st) r) with (deciding_cell st r).
  by rewrite Hd.
Qed.

End hide_button.

(** X3. On a page whose cached cells are elements inside table rows,
    pressing the hide button twice comes to the same as one [applyHide]:
    the flag is back where it was, local storage holds it again, and every
    row is hidden or shown as that flag says. One press flips the flag,
    stores it, and leaves every row that holds a cached cell hidden
    exactly when the new flag is on and the last cached cell of that row
    is marked learned. *)
Theorem hide_button_twice (st : state) :
  cache_in_rows st →
  (onHideClick;; onHideClick) st = applyHide st ∧
  ∃ st1, onHideClick st = (Return tt, st1) ∧
    hideLearned st1 = negb (hideLearned st) ∧
    localStorage_hideLearned st1 = Some (negb (hideLearned st)) ∧
    elements_store st1 = elements_store st ∧
    ∀ r, r ∈ hidden_rows st1 ↔
         match deciding_cell st r with
         | Some td => negb (hideLearned st) && carries_learned st td = true
         | None => r ∈ hidden_rows st
         end.
Proof.
  intros Hv.
  assert (cache_in_rows (with_hideLearned (negb (hideLearned st)) st)) as Hv1
    by done.
  assert (cache_in_rows
            (rows_hidden (with_hideLearned (negb (hideLearned st)) st))) as Hv2
    by done.
  split.
  - erewrite bind_Return; [|by apply onHideClick_run].
    rewrite onHideClick_run, applyHide_run by done. f_equal.
    apply state_eq; try done.
    + simpl. by rewrite negb_involutive.
    + pose proof (rows_hidden_twice st (negb (hideLearned st))) as Htwice.
      etrans; [|exact Htwice]. simpl. by rewrite negb_involutive.
    + simpl. by rewrite negb_involutive.
    + simpl. by rewrite negb_involutive.
  - eexists. split; [by apply onHideClick_run|].
    split; [done|]. split; [done|]. split; [done|].
    intros r. by rewrite rows_hidden_rows.
Qed.

Lemma hide_button_twice_witness :
  cache_in_rows marked_page ∧
  (onHideClick;; onHideClick) marked_page = applyHide marked_page ∧
  hidden_rows (applyHide marked_page).2 = {[0; 1]} ∧
  hideLearned (onHideClick marked_page).2 = false ∧
  hidden_rows (onHideClick marked_page).2 = ∅.
Proof.
  assert (cache_in_rows marked_page) as Hv.
  { intros td Htd. simpl in Htd.
    repeat (apply elem_of_cons in Htd as [->|Htd]; [by eexists|]).
    by apply elem_of_nil in Htd. }
  destruct (hide_button_twice marked_page Hv) as [Htwice _].
  split; [exact Hv|]. split; [exact Htwice|]. clear. by vm_compute.
Defined.

(* ===================================================================== *)
(** * The click handler, step by step *)
(* ===================================================================== *)

Section click_steps.

Lemma saveProgressToDB_run io st :
  saveProgressToDB io st = (Return tt, saved io st).
Proof.
  unfold saveProgressToDB, saved, idbOpen, idbPut. run.
  by destruct (open_ok io), (tx_ok io).
Qed.

Lemma onClick_steps io td st c :
  readable (progress st) (PAGE_ID st) →
  elements_store st !! td = Some c →
  onClick io td st =
    (applyHide;; recalculateAndUpdateUI) (saved io (toggled st td c)).
Proof.
  intros Hr Hc. unfold onClick.
  rewrite (bind_Return _ _ _ _ _ (element_run _ _ _ Hc)).
  rewrite (bind_Return _ _ _ _ _ (getSet_run st Hr)).
  fold (model_set st). fold (item_id c). unfold toggled.
  destruct (Set_has (model_set st) (item_id c)) eqn:Hhas; simpl.
  - erewrite bind_Return; last first.
    { erewrite bind_Return; [reflexivity|]. by apply update_element_run. }
    erewrite bind_Return; [|apply setSet_run].
    erewrite bind_Return; [|apply saveProgressToDB_run]. done.
  - erewrite bind_Return; last first.
    { erewrite bind_Return; [reflexivity|]. by apply update_element_run. }
    erewrite bind_Return; [|apply setSet_run].
    erewrite bind_Return; [|apply saveProgressToDB_run]. done.
Qed.

Lemma hide_then_recount_model_and_store :
  preserves model_and_store (applyHide;; recalculateAndUpdateUI).
Proof.
  apply preserves_bind; [apply applyHide_model_and_store | intros _].
  apply recalculateAndUpdateUI_model_and_store.
Qed.

Lemma saved_toggled_elements io td st c :
  elements_store (saved io (toggled st td c)) =
    <[td := set_learned (negb (Set_has (model_set st) (item_id c))) c]>
      (elements_store st).
Proof. unfold saved. by destruct (open_ok io && tx_ok io). Qed.

Lemma saved_toggled_fields io td st c :
  wordCells (saved io (toggled st td c)) = wordCells st ∧
  hideLearned (saved io (toggled st td c)) = hideLearned st ∧
  document_words (saved io (toggled st td c)) = document_words st ∧
  hidden_rows (saved io (toggled st td c)) = hidden_rows st ∧
  PAGE_ID (saved io (toggled st td c)) = PAGE_ID st ∧
  progressBar (saved io (toggled st td c)) = progressBar st ∧
  progressFill (saved io (toggled st td c)) = progressFill st ∧
  progressText (saved io (toggled st td c)) = progressText st.
Proof. unfold saved. by destruct (open_ok io && tx_ok io). Qed.

Lemma row_of_saved_toggled io td st c td' :
  elements_store st !! td = Some c →
  row_of (saved io (toggled st td c)) td' = row_of st td'.
Proof.
  intros Hc. unfold row_of. rewrite saved_toggled_elements.
  destruct (decide (td = td')) as [<-|Hne].
  - rewrite list_lookup_insert_eq by eauto using lookup_lt_Some.
    by rewrite Hc.
  - by rewrite list_lookup_insert_ne.
Qed.


Lemma saved_toggled_wf io td st c :
  elements_store st !! td = Some c →
  (cache_in_rows st → cache_in_rows (saved io (toggled st td c))) ∧
  (page_wf st → page_wf (saved io (toggled st td c))) ∧
  readable (progress (saved io (toggled st td c)))
           (PAGE_ID (saved io (toggled st td c))).
Proof.
  intros Hc. destruct (saved_toggled_fields io td st c)
    as (Hw & _ & Hd & _ & Hpid & _).
  split; [|split].
  - intros H td' Htd'. rewrite Hw in Htd'. rewrite row_of_saved_toggled by done.
    by apply H.
  - intros H td' Htd'. rewrite Hd in Htd'. rewrite saved_toggled_elements.
    apply lookup_lt_is_Some. rewrite length_insert.
    by apply lookup_lt_is_Some, H.
  - rewrite Hpid. unfold saved.
    destruct (open_ok io && tx_ok io); apply readable_insert.
Qed.

End click_steps.

(** X4. Under a page identifier that has an entry of its own in the
    document or names nothing a plain object inherits, a toggle leaves the
    document in memory with the change. When its save succeeds the record
    in the database is that document and the status says so; when its
    save fails the record is as it was and the status says that saving
    failed. So after a failed save the next toggle that saves brings the
    record up to date. Nothing that follows the save in the handler
    touches record, document or status, even if it throws. Under any
    other page identifier the handler throws before it changes or saves
    anything. *)
Theorem toggle_save_reconciles (io : idb_run) (td : ref) (st : state) (c : cell)
  (Hcell : elements_store st !! td = Some c) :
  (readable (progress st) (PAGE_ID st) →
   progress (onClick io td st).2 = progress (toggled st td c) ∧
   (open_ok io = true → tx_ok io = true →
      idb_progress (onClick io td st).2 = Some (progress (onClick io td st).2) ∧
      statusEl (onClick io td st).2 = "Прогрес збережено.") ∧
   (open_ok io = false ∨ tx_ok io = false →
      idb_progress (onClick io td st).2 = idb_progress st ∧
      statusEl (onClick io td st).2 = "Помилка збереження.")) ∧
  (¬ readable (progress st) (PAGE_ID st) →
   onClick io td st = (Throw TypeError, st)).
Proof.
  split.
  - intros Hr. rewrite (onClick_steps io td st c Hr Hcell).
    pose proof (hide_then_recount_model_and_store (saved io (toggled st td c)))
      as Hk.
    unfold model_and_store in Hk. injection Hk as _ Hp _ Hdb Hs.
    rewrite Hp, Hdb, Hs. unfold saved.
    split; [by destruct (open_ok io && tx_ok io)|]. split.
    + by intros -> ->.
    + by intros [-> | ->]; rewrite ?andb_false_r.
  - intros Hn. destruct (onClick_unreadable io td st Hn) as [H1 H2].
    destruct (onClick io td st) as [o s]. simpl in *. by subst.
Qed.

Lemma toggle_save_reconciles_witness :
  readable (progress example_page) (PAGE_ID example_page) ∧
  idb_progress (onClick (IdbRun true false) 1 example_page).2 = None ∧
  idb_progress
    (onClick (IdbRun true true) 0 (onClick (IdbRun true false) 1 example_page).2).2
    = Some (Doc (<[lit "verbs" := [lit "haben"; lit "sein"]]> ∅)) ∧
  onClick (IdbRun true true) 0 constructor_page
    = (Throw TypeError, constructor_page).
Proof.
  assert (readable (progress example_page) (PAGE_ID example_page)) as Hr
    by (by right).
  split; [exact Hr|].
  destruct (toggle_save_reconciles (IdbRun true false) 1 example_page
              (example_cell " haben " 1) eq_refl) as [Hok _].
  destruct (Hok Hr) as (_ & _ & Hfail).
  destruct (Hfail (or_intror eq_refl)) as [Hdb _].
  split; [exact Hdb|].
  assert (readable
            (progress (onClick (IdbRun true false) 1 example_page).2)
            (PAGE_ID (onClick (IdbRun true false) 1 example_page).2)) as Hr'
    by (by apply onClick_readable).
  destruct (toggle_save_reconciles (IdbRun true true) 0
              (onClick (IdbRun true false) 1 example_page).2
              (example_cell "sein" 0) eq_refl) as [Hok' _].
  destruct (Hok' Hr') as (_ & Hsave & _).
  destruct (Hsave eq_refl eq_refl) as [Hdb' _].
  split; [rewrite Hdb'; clear; by vm_compute|].
  destruct (toggle_save_reconciles (IdbRun true true) 0 constructor_page
              (example_cell "sein" 0) eq_refl) as [_ Hthrow].
  apply Hthrow. intros [[arr Harr]|Hplain]; [done | by vm_compute in Hplain].
Defined.

(* ===================================================================== *)
(** * The readout after a toggle *)
(* ===================================================================== *)

Section readout.

Lemma filter_learned_seq (pre l : list cell) :
  length (filter (λ i, from_option learned false ((pre ++ l) !! i) = true)
                 (seq (length pre) (length l))) =
  length (filter (λ c, learned c = true) l).
Proof.
  revert pre. induction l as [|x l IH]; intros pre; [done|].
  cbn [length seq]. rewrite !filter_cons.
  rewrite (lookup_app_r pre (x :: l)) by lia. rewrite Nat.sub_diag. simpl.
  specialize (IH (pre ++ [x])).
  rewrite length_app, Nat.add_1_r, <-(assoc_L (++)) in IH. simpl in IH.
  by destruct (decide (learned x = true)); simpl; rewrite IH.
Qed.

Lemma marked_count_cells st :
  marked_count st = length (filter (λ c, learned c = true) (elements_store st)).
Proof.
  unfold marked_count, items.
  induction (elements_store st) as [|x l IH]; [done|].
  rewrite fmap_cons, !filter_cons. simpl.
  by destruct (decide (learned x = true)); simpl; rewrite IH.
Qed.

(** When the document lists every cell, the flagged items are the marked
    ones. *)
Lemma complete_flagged_marked st :
  document_complete st → flagged_count st = marked_count st.
Proof.
  intros Hd. unfold flagged_count. rewrite Hd, marked_count_cells.
  by rewrite <-(filter_learned_seq [] (elements_store st)).
Qed.

Lemma marked_count_le st : marked_count st ≤ length (elements_store st).
Proof. rewrite marked_count_cells. apply length_filter. Qed.

Lemma complete_page_wf st : document_complete st → page_wf st.
Proof.
  intros Hd td Htd. rewrite Hd in Htd. apply elem_of_seq in Htd.
  apply lookup_lt_is_Some. lia.
Qed.

End readout.

Section after_toggle.

Lemma onClick_run io td st c :
  readable (progress st) (PAGE_ID st) → cache_in_rows st →
  elements_store st !! td = Some c →
  onClick io td st =
    recalculateAndUpdateUI (rows_hidden (saved io (toggled st td c))).
Proof.
  intros Hr Hv Hc. rewrite (onClick_steps io td st c Hr Hc).
  erewrite bind_Return; [done|]. apply applyHide_run.
  by apply saved_toggled_wf.
Qed.

(** The handler on a page it gets through: where it ends. *)
Lemma onClick_returns io td st c :
  readable (progress st) (PAGE_ID st) → cache_in_rows st → page_wf st →
  elements_store st !! td = Some c →
  ∃ st', onClick io td st = (Return tt, st') ∧
    beside_counters st'
      = beside_counters (rows_hidden (saved io (toggled st td c))) ∧
    wordCells st' = document_words st ∧
    totalWords st' = length (document_words st) ∧
    learnedCount st' =
      flagged_count (rows_hidden (saved io (toggled st td c)))
        `max` Set_size (model_set (saved io (toggled st td c))) ∧
    (progressBar st && progressFill st && progressText st = true →
     published st' =
       Some (Readout (learnedCount st' `min` totalWords st') (totalWords st')
               (percent_of (learnedCount st' `min` totalWords st')
                           (totalWords st')))).
Proof.
  intros Hr Hv Hp Hc. rewrite (onClick_run io td st c Hr Hv Hc).
  destruct (saved_toggled_wf io td st c Hc) as (_ & Hp1 & Hr1).
  destruct (saved_toggled_fields io td st c)
    as (_ & _ & Hdw & _ & _ & Hb & Hf & Ht).
  destruct (recalculateAndUpdateUI_returns
              (rows_hidden (saved io (toggled st td c))))
    as (st' & Hrun & Hbeside & Hcache & Htw & Hlc & Hpub);
    [exact Hr1 | exact (Hp1 Hp) |].
  change (document_words (rows_hidden (saved io (toggled st td c))))
    with (document_words (saved io (toggled st td c))) in *.
  rewrite Hdw in *.
  exists st'. split; [done|]. split; [done|]. split; [done|].
  split; [done|]. split; [done|]. intros Hall. apply Hpub.
  change (progressBar (rows_hidden ?s)) with (progressBar s).
  change (progressFill (rows_hidden ?s)) with (progressFill s).
  change (progressText (rows_hidden ?s)) with (progressText s).
  by rewrite Hb, Hf, Ht.
Qed.

End after_toggle.


Lemma example_page_in_rows st :
  elements_store st = elements_store example_page →
  ∀ td, td ∈ [0; 1; 2] → is_Some (row_of st td).
Proof.
  intros Hels td Htd. unfold row_of. rewrite Hels.
  repeat (apply elem_of_cons in Htd as [->|Htd]; [by eexists|]).
  by apply elem_of_nil in Htd.
Qed.

Lemma example_page_wf st :
  elements_store st = elements_store example_page →
  ∀ td, td ∈ [0; 1; 2] → is_Some (elements_store st !! td).
Proof.
  intros Hels td Htd. rewrite Hels.
  repeat (apply elem_of_cons in Htd as [->|Htd]; [by eexists|]).
  by apply elem_of_nil in Htd.
Qed.


Section toggle_readout.

Lemma beside_counters_items st st' :
  beside_counters st = beside_counters st' →
  items st = items st' ∧ model_set st = model_set st' ∧
  flagged_count st = flagged_count st'.
Proof.
  unfold beside_counters, items, model_set, flagged_count, carries_learned.
  by intros [= -> -> _ -> -> _].
Qed.

End toggle_readout.

(** X6. On a page that lists every word cell, with distinct item
    identifiers, marks that show the model, the cached cells being
    elements inside table rows and the three progress elements present,
    under a page identifier that has an entry of its own in the document
    or names nothing a plain object inherits, a toggle returns and the
    readout it publishes is exact: the learned value is the number of
    items marked learned, which is the size of the learned set, and the
    total is the number of items. The cache ends refreshed from the
    document. *)
Theorem readout_after_toggle (io : idb_run) (td : ref) (st : state) (c : cell) :
  readable (progress st) (PAGE_ID st) →
  distinct_items st → marks_agree st → document_complete st →
  cache_in_rows st →
  progressBar st && progressFill st && progressText st = true →
  elements_store st !! td = Some c →
  ∃ st', onClick io td st = (Return tt, st') ∧
    marked_count st' = Set_size (model_set st') ∧
    published st' =
      Some (Readout (marked_count st') (length (elements_store st))
              (percent_of (marked_count st') (length (elements_store st)))) ∧
    wordCells st' = document_words st.
Proof.
  intros Hr Hnd Hag Hd Hv Hw Hc.
  set (s1 := rows_hidden (saved io (toggled st td c))).
  destruct (onClick_returns io td st c Hr Hv (complete_page_wf st Hd) Hc)
    as (st' & Hclick & Hbeside & Hcache & Htw & Hlc & Hpub).
  fold s1 in Hbeside, Hlc.
  change (model_set (saved io (toggled st td c))) with (model_set s1) in Hlc.
  destruct (saved_toggled_fields io td st c) as (_ & _ & Hdw & _).
  assert (length (elements_store s1) = length (elements_store st)) as Hlen.
  { change (elements_store s1)
      with (elements_store (saved io (toggled st td c))).
    by rewrite saved_toggled_elements, length_insert. }
  assert (document_complete s1) as Hd1.
  { unfold document_complete. rewrite Hlen.
    change (document_words s1)
      with (document_words (saved io (toggled st td c))).
    by rewrite Hdw. }
  destruct (onClick_invariant io td st Hnd Hag) as [Hnd' Hag'].
  rewrite Hclick in Hnd', Hag'. simpl in Hnd', Hag'.
  pose proof (agree_size _ _ Hnd' Hag') as Hsize.
  fold (marked_count st') in Hsize.
  destruct (beside_counters_items _ _ Hbeside) as (Hit & Hms & Hfc).
  assert (marked_count st' = marked_count s1) as Hmc
    by (unfold marked_count; by rewrite Hit).
  exists st'. split; [done|]. split; [done|]. split; [|done].
  rewrite (Hpub Hw).
  rewrite Hlc, Htw, (complete_flagged_marked s1 Hd1), Hd, length_seq.
  rewrite <-Hms, <-Hmc. unfold Set_size in *. rewrite <-Hsize.
  rewrite Nat.max_id, Nat.min_l; [done|].
  rewrite Hsize, Hmc, <-Hlen. apply marked_count_le.
Qed.

Lemma readout_after_toggle_witness :
  distinct_items example_page ∧ marks_agree example_page ∧
  document_complete example_page ∧ cache_in_rows example_page ∧
  ∃ st', onClick (IdbRun true true) 1 example_page = (Return tt, st') ∧
    marked_count st' = Set_size (model_set st') ∧
    published st' =
      Some (Readout (marked_count st') 3 (percent_of (marked_count st') 3)) ∧
    wordCells st' = [0; 1; 2].
Proof.
  assert (distinct_items example_page) as Hnd by compute_done.
  assert (cache_in_rows example_page) as Hrows
    by exact (example_page_in_rows example_page eq_refl).
  assert (readable (progress example_page) (PAGE_ID example_page)) as Hr
    by (by right).
  split; [exact Hnd|]. split; [exact example_page_agrees|].
  split; [reflexivity|]. split; [exact Hrows|].
  exact (readout_after_toggle (IdbRun true true) 1 example_page
           (example_cell " haben " 1) Hr Hnd example_page_agrees eq_refl
           Hrows eq_refl eq_refl).
Defined.

(* ===================================================================== *)
(** * Start-up *)
(* ===================================================================== *)

Section boot.

Lemma try_catch_Return {A} (m h : M A) st a st' :
  m st = (Return a, st') → try_catch m h st = (Return a, st').
Proof. intros H. unfold try_catch. by rewrite H. Qed.

Lemma try_catch_Throw {A} (m h : M A) st e st' :
  m st = (Throw e, st') → try_catch m h st = h st'.
Proof. intros H. unfold try_catch. by rewrite H. Qed.

Lemma with_progress_id st : with_progress (progress st) st = st.
Proof. by destruct st. Qed.

(** Where painting ends, seen from the page it started on. *)
Lemma applyMarks_ends st :
  readable (progress st) (PAGE_ID st) → cache_in_rows st → page_wf st →
  ∃ st', applyMarks st = (Return tt, st') ∧
    model_and_store st' = model_and_store st ∧
    elements_store st' = elements_store (marks_painted st) ∧
    hidden_rows st' = hidden_rows (rows_hidden (marks_painted st)) ∧
    wordCells st' = document_words st ∧
    document_words st' = document_words st.
Proof.
  intros Hr Hc Hp. destruct (applyMarks_run st Hr Hc Hp) as (s1 & Hrun & Hb & Hw).
  pose proof (applyMarks_model_and_store st) as Hms.
  rewrite Hrun in Hms. simpl in Hms.
  destruct (beside_counters_elements _ _ Hb) as [Hels Hhid].
  exists s1. split; [done|]. split; [done|]. split; [done|].
  split; [done|]. split; [done|].
  unfold beside_counters in Hb. by injection Hb.
Qed.

(** Painting, setting the button and recounting, as [boot] does when it
    has no record to install. *)
Lemma paint_and_recount_run st :
  readable (progress st) (PAGE_ID st) → cache_in_rows st → page_wf st →
  ∃ st', (applyMarks;; updateHideButton;; recalculateAndUpdateUI) st
           = (Return tt, st') ∧
    model_and_store st' = model_and_store st ∧
    elements_store st' = elements_store (marks_painted st) ∧
    hidden_rows st' = hidden_rows (rows_hidden (marks_painted st)) ∧
    wordCells st' = document_words st ∧
    document_words st' = document_words st.
Proof.
  intros Hr Hc Hp.
  destruct (applyMarks_ends st Hr Hc Hp)
    as (s1 & Hrun & Hms & Hels & Hhid & Hw & Hdw).
  erewrite bind_Return; [|exact Hrun].
  erewrite bind_Return; [|reflexivity].
  set (s2 := with_btnHide (if hideLearned s1 then "👁️‍🗨️" else "👁️") s1).
  assert (page_wf s2) as Hp2.
  { intros td Htd. change (document_words s2) with (document_words s1) in Htd.
    change (elements_store s2) with (elements_store s1).
    rewrite Hels. rewrite Hdw in Htd.
    exact (proj2 (marks_painted_wf st) Hp td Htd). }
  assert (readable (progress s2) (PAGE_ID s2)) as Hr2.
  { change (progress s2) with (progress s1).
    change (PAGE_ID s2) with (PAGE_ID s1).
    unfold model_and_store in Hms. by injection Hms as -> -> _ _ _. }
  destruct (recalculateAndUpdateUI_returns s2 Hr2 Hp2)
    as (st' & Hrun' & Hb' & Hw' & _).
  exists st'. split; [done|].
  pose proof (recalculateAndUpdateUI_model_and_store s2) as Hms'.
  rewrite Hrun' in Hms'. simpl in Hms'.
  destruct (beside_counters_elements _ _ Hb') as [Hels' Hhid'].
  split; [by rewrite Hms', <-Hms|]. split; [by rewrite Hels', <-Hels|].
  split; [by rewrite Hhid', <-Hhid|]. split; [by rewrite Hw'|].
  unfold beside_counters in Hb'. injection Hb' as _ _ _ _ Hd _. by rewrite Hd.
Qed.

Lemma boot_run io st :
  readable (booted_document io st) (PAGE_ID st) →
  cache_in_rows st → page_wf st →
  ∃ st', boot io st = (Return tt, st') ∧
    model_and_store st' =
      (PAGE_ID st, booted_document io st, hideLearned st, idb_progress st,
       booted_status io st) ∧
    wordCells st' = document_words st ∧
    document_words st' = document_words st ∧
    elements_store st' =
      elements_store (marks_painted (with_progress (booted_document io st) st)) ∧
    hidden_rows st' =
      hidden_rows (rows_hidden
                     (marks_painted (with_progress (booted_document io st) st))).
Proof.
  unfold booted_document, booted_status. intros Hr Hc Hp.
  set (s0 := with_status "Прогрес зберігається автоматично." st).
  assert (∀ st', (applyMarks;; updateHideButton;; recalculateAndUpdateUI) s0
                   = (Return tt, st') →
            model_and_store st' = model_and_store s0 →
            elements_store st' = elements_store (marks_painted s0) →
            hidden_rows st' = hidden_rows (rows_hidden (marks_painted s0)) →
            wordCells st' = document_words s0 →
            document_words st' = document_words s0 →
            model_and_store st' =
              (PAGE_ID st, progress st, hideLearned st, idb_progress st,
               "Прогрес зберігається автоматично.") ∧
            wordCells st' = document_words st ∧
            document_words st' = document_words st ∧
            elements_store st' =
              elements_store (marks_painted (with_progress (progress st) st)) ∧
            hidden_rows st' =
              hidden_rows (rows_hidden
                             (marks_painted (with_progress (progress st) st))))
    as Hauto.
  { intros st' _ Hms Hels Hhid Hw Hdw. by rewrite Hms, Hels, Hhid, Hw, Hdw. }
  destruct (open_ok io) eqn:Ho; [destruct (tx_ok io) eqn:Ht|];
    [destruct (idb_progress st) as [d|] eqn:Hd|..]; simpl in *.
  - destruct (applyMarks_ends (with_progress d st) Hr Hc Hp)
      as (s1 & Hrun & Hms & Hels & Hhid & Hw & Hdw).
    exists (with_status "Прогрес завантажено з бази даних." s1). split.
    { unfold boot. apply try_catch_Return.
      erewrite bind_Return; [|by unfold idbOpen; rewrite Ho].
      erewrite bind_Return; [|by unfold idbGet, get; rewrite Ht, Hd].
      cbv beta iota.
      erewrite bind_Return; [|reflexivity].
      erewrite bind_Return; [|exact Hrun]. reflexivity. }
    unfold model_and_store in Hms. injection Hms as Hpid Hprog Hh Hdb _.
    split; [unfold model_and_store; simpl; by rewrite Hpid, Hprog, Hh, Hdb, Hd|].
    done.
  - destruct (paint_and_recount_run s0 Hr Hc Hp)
      as (st' & Hrun & Hms & Hels & Hhid & Hw & Hdw).
    exists st'. split; [|by apply Hauto].
    unfold boot. apply try_catch_Return.
    erewrite bind_Return; [|by unfold idbOpen; rewrite Ho].
    erewrite bind_Return; [|by unfold idbGet, get; rewrite Ht, Hd].
    cbv beta iota.
    erewrite bind_Return; [|reflexivity]. exact Hrun.
  - destruct (paint_and_recount_run s0 Hr Hc Hp)
      as (st' & Hrun & Hms & Hels & Hhid & Hw & Hdw).
    exists st'. split; [|by apply Hauto].
    unfold boot. erewrite try_catch_Throw; last first.
    { erewrite bind_Return; [|by unfold idbOpen; rewrite Ho].
      apply bind_Throw. by unfold idbGet; rewrite Ht. }
    erewrite bind_Return; [|reflexivity]. exact Hrun.
  - destruct (paint_and_recount_run s0 Hr Hc Hp)
      as (st' & Hrun & Hms & Hels & Hhid & Hw & Hdw).
    exists st'. split; [|by apply Hauto].
    unfold boot. erewrite try_catch_Throw; last first.
    { apply bind_Throw. by unfold idbOpen; rewrite Ho. }
    erewrite bind_Return; [|reflexivity]. exact Hrun.
Qed.

(** Under a page identifier that [getSet] cannot read in the document
    [boot] arrives at, [applyMarks] throws in the [try] block and again in
    the [catch] block, and [boot] rejects. *)
Lemma boot_unreadable io st :
  ¬ readable (booted_document io st) (PAGE_ID st) →
  boot io st =
    (Throw TypeError,
     with_status "Прогрес зберігається автоматично."
       (with_progress (booted_document io st) st)).
Proof.
  unfold booted_document. intros Hn.
  set (s0 := with_status "Прогрес зберігається автоматично." st).
  assert (¬ readable (progress st) (PAGE_ID st) →
          (applyMarks;; updateHideButton;; recalculateAndUpdateUI) s0
            = (Throw TypeError, s0)) as Hthrow.
  { intros Hn'. apply bind_Throw. by apply (applyMarks_unreadable s0). }
  assert (with_status "Прогрес зберігається автоматично."
            (with_progress (progress st) st) = s0) as Hs0
    by (by rewrite with_progress_id).
  destruct (open_ok io) eqn:Ho; [destruct (tx_ok io) eqn:Ht|];
    [destruct (idb_progress st) as [d|] eqn:Hd|..]; simpl in *.
  - unfold boot. erewrite try_catch_Throw; last first.
    { erewrite bind_Return; [|by unfold idbOpen; rewrite Ho].
      erewrite bind_Return; [|by unfold idbGet, get; rewrite Ht, Hd].
      cbv beta iota.
      erewrite bind_Return; [|reflexivity].
      apply bind_Throw. by apply (applyMarks_unreadable (with_progress d st)). }
    erewrite bind_Return; [|reflexivity].
    apply bind_Throw.
    by apply (applyMarks_unreadable
                (with_status "Прогрес зберігається автоматично."
                   (with_progress d st))).
  - rewrite Hs0. unfold boot. erewrite try_catch_Throw; last first.
    { erewrite bind_Return; [|by unfold idbOpen; rewrite Ho].
      erewrite bind_Return; [|by unfold idbGet, get; rewrite Ht, Hd].
      cbv beta iota.
      erewrite bind_Return; [|reflexivity]. by apply Hthrow. }
    erewrite bind_Return; [|reflexivity]. by apply Hthrow.
  - rewrite Hs0. unfold boot. erewrite try_catch_Throw; last first.
    { erewrite bind_Return; [|by unfold idbOpen; rewrite Ho].
      apply bind_Throw. by unfold idbGet; rewrite Ht. }
    erewrite bind_Return; [|reflexivity]. by apply Hthrow.
  - rewrite Hs0. unfold boot. erewrite try_catch_Throw; last first.
    { apply bind_Throw. by unfold idbOpen; rewrite Ho. }
    erewrite bind_Return; [|reflexivity]. by apply Hthrow.
Qed.

(** The cells and rows as painting from a document leaves them. *)
Lemma painted_from st d :
  (∀ td c, td ∈ wordCells st → elements_store st !! td = Some c →
     elements_store (marks_painted (with_progress d st)) !! td
       = Some (paint (learned_set d (PAGE_ID st)) c)) ∧
  (∀ td, td ∉ wordCells st →
     elements_store (marks_painted (with_progress d st)) !! td
       = elements_store st !! td) ∧
  (∀ r, r ∈ hidden_rows (rows_hidden (marks_painted (with_progress d st))) ↔
        match deciding_cell st r with
        | Some t =>
            hideLearned st &&
            carries_learned (marks_painted (with_progress d st)) t = true
        | None => r ∈ hidden_rows st
        end).
Proof.
  split; [|split].
  - intros td c Htd Hc.
    rewrite (marks_painted_lookup (with_progress d st) td).
    change (wordCells (with_progress d st)) with (wordCells st).
    change (elements_store (with_progress d st)) with (elements_store st).
    by rewrite decide_True, Hc.
  - intros td Htd.
    rewrite (marks_painted_lookup (with_progress d st) td).
    change (wordCells (with_progress d st)) with (wordCells st).
    by rewrite decide_False.
  - intros r.
    rewrite rows_hidden_rows, (deciding_cell_marks_painted (with_progress d st)).
    done.
Qed.

End boot.

(** X7. [boot] when the database opens, the read succeeds and there is a
    record, on a page whose cached cells are elements inside table rows
    and whose document cells are elements. Under a page identifier that
    has an entry of its own in the record or names nothing a plain object
    inherits, it returns with the record installed as the Progress
    Document, the record itself untouched, the status saying that
    progress was loaded from the database, every cached cell marked
    learned exactly when its identifier is in the record's set for the
    active page, and every row that holds a cached cell hidden exactly
    when the hide flag is on and the last cached cell of that row is now
    marked. Under any other page identifier [boot] rejects with a
    [TypeError]: the record is installed, the status says that progress
    is saved automatically, and no cell or row is touched. *)
Theorem boot_restores_saved_document (io : idb_run) (st : state) (d : document)
  (Hopen : open_ok io = true) (Hread : tx_ok io = true)
  (Hrecord : idb_progress st = Some d)
  (Hrows : cache_in_rows st) (Hpage : page_wf st) :
  (readable d (PAGE_ID st) →
   ∃ st', boot io st = (Return tt, st') ∧
     progress st' = d ∧ idb_progress st' = Some d ∧
     statusEl st' = "Прогрес завантажено з бази даних." ∧
     (∀ td c, td ∈ wordCells st → elements_store st !! td = Some c →
        ∃ c', elements_store st' !! td = Some c' ∧
              unpainted c' = unpainted c ∧
              learned c' = Set_has (learned_set d (PAGE_ID st)) (item_id c)) ∧
     (∀ r, r ∈ hidden_rows st' ↔
           match deciding_cell st r with
           | Some t => hideLearned st && carries_learned st' t = true
           | None => r ∈ hidden_rows st
           end)) ∧
  (¬ readable d (PAGE_ID st) →
   ∃ st', boot io st = (Throw TypeError, st') ∧
     progress st' = d ∧ idb_progress st' = Some d ∧
     statusEl st' = "Прогрес зберігається автоматично." ∧
     elements_store st' = elements_store st ∧
     hidden_rows st' = hidden_rows st).
Proof.
  assert (booted_document io st = d) as HD.
  { unfold booted_document. by rewrite Hopen, Hread, Hrecord. }
  assert (booted_status io st = "Прогрес завантажено з бази даних.") as HS.
  { unfold booted_status. by rewrite Hopen, Hread, Hrecord. }
  split.
  - intros Hr. rewrite <-HD in Hr.
    destruct (boot_run io st Hr Hrows Hpage)
      as (st' & Hrun & Hms & _ & _ & Hels & Hhid).
    rewrite HD, ?HS in *.
    destruct (painted_from st d) as (Hin & _ & Hrowsafter).
    exists st'. split; [done|].
    unfold model_and_store in Hms. injection Hms as _ Hprog _ Hdb Hs.
    split; [done|]. split; [by rewrite Hdb|]. split; [done|]. split.
    + intros td c Htd Hcell. rewrite Hels, (Hin td c Htd Hcell). by eexists.
    + intros r. rewrite Hhid, Hrowsafter.
      destruct (deciding_cell st r) as [t|]; [|done].
      by rewrite (carries_learned_ext st' _ t Hels).
  - intros Hn. rewrite <-HD in Hn. rewrite (boot_unreadable io st Hn), HD.
    by eexists.
Qed.

Lemma reloaded_page_in_rows st :
  elements_store st = elements_store reloaded_page →
  ∀ td, td ∈ [0; 1; 2] → is_Some (row_of st td).
Proof. apply example_page_in_rows. Qed.

Lemma reloaded_page_wf st :
  elements_store st = elements_store reloaded_page →
  ∀ td, td ∈ [0; 1; 2] → is_Some (elements_store st !! td).
Proof. apply example_page_wf. Qed.

Lemma boot_restores_saved_document_witness :
  readable two_verbs (PAGE_ID returning_page) ∧
  ∃ st', boot (IdbRun true true) returning_page = (Return tt, st') ∧
    progress st' = two_verbs ∧ idb_progress st' = Some two_verbs ∧
    statusEl st' = "Прогрес завантажено з бази даних." ∧
    learned <$> elements_store st' = [true; true; false] ∧
    hidden_rows st' = {[0; 1]}.
Proof.
  assert (readable two_verbs (PAGE_ID returning_page)) as Hr by (by right).
  split; [exact Hr|].
  destruct (boot_restores_saved_document (IdbRun true true)
              returning_page two_verbs eq_refl eq_refl eq_refl
              (reloaded_page_in_rows returning_page eq_refl)
              (reloaded_page_wf returning_page eq_refl)) as [Hok _].
  destruct (Hok Hr) as (st' & Hrun & Hp & Hdb & Hs & _).
  exists st'. split; [exact Hrun|]. split; [exact Hp|].
  split; [exact Hdb|]. split; [exact Hs|].
  assert (st' = (boot (IdbRun true true) returning_page).2) as ->
    by by rewrite Hrun.
  clear. by vm_compute.
Defined.

(** X8. [boot] when the database does not open, or the read fails, or
    there is no record, on a page whose cached cells are elements inside
    table rows and whose document cells are elements. Under a page
    identifier that has an entry of its own in the document or names
    nothing a plain object inherits, it still returns: the Progress
    Document is the one it started with (the empty one of the
    constructor), the record is untouched, the status says that progress
    is saved automatically, and cells and rows are painted from that
    document. Under any other page identifier [boot] rejects with a
    [TypeError], with the same status and no cell or row touched. *)
Theorem boot_without_record (io : idb_run) (st : state)
  (Hnone : open_ok io = false ∨ tx_ok io = false ∨ idb_progress st = None)
  (Hrows : cache_in_rows st) (Hpage : page_wf st) :
  (readable (progress st) (PAGE_ID st) →
   ∃ st', boot io st = (Return tt, st') ∧
     progress st' = progress st ∧ idb_progress st' = idb_progress st ∧
     statusEl st' = "Прогрес зберігається автоматично." ∧
     (∀ td c, td ∈ wordCells st → elements_store st !! td = Some c →
        ∃ c', elements_store st' !! td = Some c' ∧
              unpainted c' = unpainted c ∧
              learned c' = Set_has (model_set st) (item_id c)) ∧
     (∀ r, r ∈ hidden_rows st' ↔
           match deciding_cell st r with
           | Some t => hideLearned st && carries_learned st' t = true
           | None => r ∈ hidden_rows st
           end)) ∧
  (¬ readable (progress st) (PAGE_ID st) →
   ∃ st', boot io st = (Throw TypeError, st') ∧
     progress st' = progress st ∧ idb_progress st' = idb_progress st ∧
     statusEl st' = "Прогрес зберігається автоматично." ∧
     elements_store st' = elements_store st ∧
     hidden_rows st' = hidden_rows st).
Proof.
  assert (booted_document io st = progress st) as HD.
  { unfold booted_document.
    destruct Hnone as [-> | [-> | ->]]; by rewrite ?andb_false_r;
      try destruct (open_ok io && tx_ok io). }
  assert (booted_status io st = "Прогрес зберігається автоматично.") as HS.
  { unfold booted_status.
    destruct Hnone as [-> | [-> | ->]]; by rewrite ?andb_false_r;
      try destruct (open_ok io && tx_ok io). }
  split.
  - intros Hr. rewrite <-HD in Hr.
    destruct (boot_run io st Hr Hrows Hpage)
      as (st' & Hrun & Hms & _ & _ & Hels & Hhid).
    rewrite HD, ?HS in *.
    destruct (painted_from st (progress st)) as (Hin & _ & Hrowsafter).
    exists st'. split; [done|].
    unfold model_and_store in Hms. injection Hms as _ Hprog _ Hdb Hs.
    split; [done|]. split; [done|]. split; [done|]. split.
    + intros td c Htd Hcell. rewrite Hels, (Hin td c Htd Hcell). by eexists.
    + intros r. rewrite Hhid, Hrowsafter.
      destruct (deciding_cell st r) as [t|]; [|done].
      by rewrite (carries_learned_ext st' _ t Hels).
  - intros Hn. rewrite <-HD in Hn. rewrite (boot_unreadable io st Hn), HD.
    by eexists.
Qed.

Lemma boot_without_record_witness :
  readable (progress reloaded_page) (PAGE_ID reloaded_page) ∧
  (∃ st', boot (IdbRun false true) reloaded_page = (Return tt, st') ∧
     progress st' = two_verbs ∧ idb_progress st' = Some two_verbs ∧
     statusEl st' = "Прогрес зберігається автоматично." ∧
     hidden_rows st' = {[0; 1]}) ∧
  ¬ readable (progress constructor_page) (PAGE_ID constructor_page) ∧
  ∃ st', boot (IdbRun true true) constructor_page = (Throw TypeError, st') ∧
    elements_store st' = elements_store constructor_page.
Proof.
  assert (readable (progress reloaded_page) (PAGE_ID reloaded_page)) as Hr
    by (by right).
  assert (¬ readable (progress constructor_page) (PAGE_ID constructor_page))
    as Hn.
  { intros [[arr Harr]|Hplain]; [done | by vm_compute in Hplain]. }
  split; [exact Hr|].
  destruct (boot_without_record (IdbRun false true) reloaded_page
              (or_introl eq_refl)
              (reloaded_page_in_rows reloaded_page eq_refl)
              (reloaded_page_wf reloaded_page eq_refl)) as [Hok _].
  destruct (Hok Hr) as (st' & Hrun & Hp & Hdb & Hs & _).
  destruct (boot_without_record (IdbRun true true) constructor_page
              (or_intror (or_intror eq_refl))
              (reloaded_page_in_rows constructor_page eq_refl)
              (reloaded_page_wf constructor_page eq_refl)) as [_ Hthrow].
  destruct (Hthrow Hn) as (st'' & Hrun' & _ & _ & _ & Hels & _).
  split; [|split; [exact Hn|]].
  - exists st'. split; [exact Hrun|]. split; [exact Hp|].
    split; [exact Hdb|]. split; [exact Hs|].
    assert (st' = (boot (IdbRun false true) reloaded_page).2) as ->
      by by rewrite Hrun.
    clear. by vm_compute.
  - exists st''. split; [exact Hrun' | exact Hels].
Defined.

Section startup.










Lemma learned_bind_cell c : learned (bind_cell c) = learned c.
Proof. unfold bind_cell. by case_decide. Qed.


End startup.



(* ===================================================================== *)
(** * The observer *)
(* ===================================================================== *)

Section observer_effect.






End observer_effect.



Section startup_binding.









End startup_binding.



(* ===================================================================== *)
(** * Reading the set from a loaded file *)
(* ===================================================================== *)

(** X12. Whatever the external file holds, [getSet] on the value that
    [loadFromFile] installs never fails at reading [pages] or the page's
    entry: both property reads succeed, the second one through the
    prototype chain of [pages]. When the entry is a value of the file it
    yields no member for a falsy one, the elements of an array and the
    code points of a string, and throws for any other truthy value; when
    the read ends on a built-in object it yields no member for
    [Array.prototype] and [String.prototype] and throws for a function
    and for the other prototypes. Whatever it throws is a [TypeError]. *)
Theorem getSet_after_loadFromFile parse page :
  ∃ p x,
    get_property (loadFromFile_progress parse) (lit "pages") = inr p ∧
    truthy p = true ∧
    Get p page = inr x ∧
    getSet_elements (loadFromFile_progress parse) page =
      match x with
      | inl entry =>
          if truthy entry then
            match entry with
            | JArr elems => inr elems
            | JStr s => inr (JStr <$> code_points s)
            | _ => inl TypeError
            end
          else inr []
      | inr b => iterate_builtin b
      end ∧
    ∀ e, getSet_elements (loadFromFile_progress parse) page = inl e →
         e = TypeError.
Proof.
  destruct (loadFromFile_progress_has_pages parse) as (p & Hp & Ht).
  assert (∃ x, Get p page = inr x) as [x Hx].
  { unfold Get. destruct p; try done; cbn [prototype_of];
      repeat case_match; eauto. }
  exists p, x. split; [done|]. split; [done|]. split; [done|].
  assert (getSet_elements (loadFromFile_progress parse) page =
            match x with
            | inl entry =>
                if truthy entry then
                  match entry with
                  | JArr elems => inr elems
                  | JStr s => inr (JStr <$> code_points s)
                  | _ => inl TypeError
                  end
                else inr []
            | inr b => iterate_builtin b
            end) as Hget.
  { unfold getSet_elements. rewrite Hp, Hx. by destruct x. }
  split; [done|]. intros e He. rewrite Hget in He.
  destruct x as [entry|b].
  - destruct (truthy entry); [|done]. destruct entry; by simplify_eq.
  - destruct b; simpl in He; by simplify_eq.
Qed.
